(** * python2igsce: the three conversion fixtures

    A shallow embedding of the repository's Python scripts

      - [test_if_else.py]      (module [IfElse]),
      - [examples/simple.py]   (module [Simple]),
      - [test_calculator.py]   (module [Calculator]),

    over a small model of the part of the Python runtime they use
    (module [Py]): the console, [print], [input], [int], [float], [str] and
    the two exceptions the console reads can raise.  The module [Session]
    holds the vocabulary of calculator sessions, and the module [Numeric]
    the two functions that take a number, on [int]s and [float]s alike. *)

From Stdlib Require Import ZArith List String Ascii Bool Lia.
From Stdlib Require Import DecimalString Floats.
From Equations Require Import Equations.
Import ListNotations.

Local Open Scope string_scope.
Local Open Scope Z_scope.

(* ===================================================================== *)
(** * The runtime *)
(* ===================================================================== *)

Module Py.

(** What a script writes on the console: [print] writes a whole line,
    [input] writes its prompt and leaves the cursor on the line. *)
Inductive event : Type :=
| Print (line : string)
| Prompt (text : string).

(** The world a script runs in.  [stdin] holds the lines still to be
    read, [stdout] what has been written so far, oldest first.  [adds] is
    ghost state: the number of calls of the calculator's [add]. *)
Record world : Type := World {
  stdin : list string;
  stdout : list event;
  adds : nat
}.

(** A fresh run on the given input lines. *)
Definition run_on (lines : list string) : world :=
  {| stdin := lines; stdout := []; adds := 0 |}.

(** [w] after the events [es] were written. *)
Definition emit (w : world) (es : list event) : world :=
  {| stdin := stdin w; stdout := stdout w ++ es; adds := adds w |}.

(** [w] after lines were read and [rest] is what remains to be read. *)
Definition reads (w : world) (rest : list string) : world :=
  {| stdin := rest; stdout := stdout w; adds := adds w |}.

(** [w] after one more call of [add]. *)
Definition tick (w : world) : world :=
  {| stdin := stdin w; stdout := stdout w; adds := S (adds w) |}.

(** What was written between [w] and the later world [w']. *)
Definition written (w w' : world) : list event :=
  skipn (List.length (stdout w)) (stdout w').

(** The exceptions of the modelled builtins: [int] and [float] raise
    [ValueError] on a line they cannot parse, [input] raises [EOFError]
    when the input has ended ([stdin] is empty). *)
Inductive exn : Type := ValueError | EOFError.

(** How a computation ends.  No script has a [try]: an exception ends the
    script where it is raised.  [OutOfFuel] is not a Python outcome: the
    [while True] loop of the calculator is run with a bound on the number
    of iterations, and [OutOfFuel] says the bound was reached. *)
Inductive result (A : Type) : Type :=
| Ok (a : A) (w : world)
| Raise (e : exn) (w : world)
| OutOfFuel (w : world).
Arguments Ok {A} a w.
Arguments Raise {A} e w.
Arguments OutOfFuel {A} w.

Definition io (A : Type) : Type := world -> result A.

Definition ret {A} (a : A) : io A := fun w => Ok a w.

Definition bind {A B} (m : io A) (k : A -> io B) : io B :=
  fun w =>
    match m w with
    | Ok a w' => k a w'
    | Raise e w' => Raise e w'
    | OutOfFuel w' => OutOfFuel w'
    end.

Definition raise {A} (e : exn) : io A := fun w => Raise e w.

(** The world a computation ends in, however it ends. *)
Definition final {A} (r : result A) : world :=
  match r with Ok _ w | Raise _ w | OutOfFuel w => w end.

(** The value a computation returned, if it returned. *)
Definition value {A} (r : result A) : option A :=
  match r with Ok a _ => Some a | _ => None end.

(** The exception a computation ended with, if any. *)
Definition raised {A} (r : result A) : option exn :=
  match r with Raise e _ => Some e | _ => None end.

(** A run [r] from the world [w] that raised an exception did so at a
    console read.  A [ValueError] comes with a line of the input that was
    [refused], read last: what followed it is still unread.  An
    [EOFError] comes with all the input read.  In both cases the last
    thing written is the prompt of the read that failed. *)
Definition failed_at_read {A} (refused : string -> Prop) (w : world)
  (r : result A) : Prop :=
  match r with
  | Ok _ _ | OutOfFuel _ => True
  | Raise ValueError w' =>
      exists before line es p,
        stdin w = (before ++ line :: stdin w')%list
        /\ refused line
        /\ stdout w' = (stdout w ++ es ++ [Prompt p])%list
  | Raise EOFError w' =>
      exists es p,
        stdin w' = [] /\ stdout w' = (stdout w ++ es ++ [Prompt p])%list
  end.

(** The specification's sentence on failures, as it is stated: whenever
    the computation fails, it is because a line did not parse. *)
Definition only_parse_failures {A} (m : io A) : Prop :=
  forall w e w', m w = Raise e w' -> e = ValueError.

(** ** Strings *)

(** [str(x)], as [print] and f-strings apply it. *)
Class Str (A : Type) : Type := str : A -> string.

#[export] Instance Str_string : Str string := fun s => s.
(** [str] of an [int]: its decimal digits.  CPython, from 3.11 on and by
    default, refuses to convert an integer of more than 4300 digits and
    raises a [ValueError] instead; here [str] is total.  The scripts
    convert fixed small integers; a statement that applies [str] to an
    integer the source does not fix assumes it [printable]. *)
#[export] Instance Str_int : Str Z := fun z => NilZero.string_of_int (Z.to_int z).

(** The integers of at most 4300 digits are those between the bounds. *)
Definition str_limit : Z := 10 ^ 4300.
Definition printable (z : Z) : Prop := - str_limit < z < str_limit.
(** A function without a [return] returns [None]. *)
#[export] Instance Str_None : Str unit := fun _ => "None".

(** One character of [str.lower()].  Lines are byte strings here, and
    the bytes of a character outside ASCII are left as they are.  Python
    lowers some of those characters, none of them to "y", the one string
    the scripts compare a lowered line with. *)
Definition lower_char (c : ascii) : ascii :=
  let n := nat_of_ascii c in
  if (65 <=? n)%nat && (n <=? 90)%nat then ascii_of_nat (n + 32) else c.

Fixpoint lower (s : string) : string :=
  match s with
  | EmptyString => EmptyString
  | String c s' => String (lower_char c) (lower s')
  end.

(** ** The console *)

(** [print(x)] *)
Definition print {A} `{Str A} (x : A) : io unit :=
  fun w => Ok tt (emit w [Print (str x)]).

(** [input(prompt)]: the prompt is written, then a line is read. *)
Definition input (prompt : string) : io string :=
  fun w =>
    match stdin w with
    | [] => Raise EOFError (emit w [Prompt prompt])
    | line :: rest => Ok line (emit (reads w rest) [Prompt prompt])
    end.

(** ** Numbers from text *)

Definition is_digit (c : ascii) : bool :=
  let n := nat_of_ascii c in (48 <=? n)%nat && (n <=? 57)%nat.

(** The value of a string of ASCII digits read after [acc]. *)
Fixpoint digits_value (s : string) (acc : Z) : option Z :=
  match s with
  | EmptyString => Some acc
  | String c s' =>
      if is_digit c
      then digits_value s' (10 * acc + Z.of_nat (nat_of_ascii c - 48))
      else None
  end.

(** The longest digit string read here: below it every integer is a float. *)
Definition plain_digits_max : nat := 15.

Definition plain_digits (s : string) : option Z :=
  if (1 <=? String.length s)%nat && (String.length s <=? plain_digits_max)%nat
  then digits_value s 0 else None.

(** A plain literal: an optional sign and one to fifteen ASCII digits.
    Returns the sign (true: minus) and the magnitude. *)
Definition plain_literal (s : string) : option (bool * Z) :=
  match s with
  | String "-"%char t => option_map (pair true) (plain_digits t)
  | String "+"%char t => option_map (pair false) (plain_digits t)
  | _ => option_map (pair false) (plain_digits s)
  end.

(** What [int], [float] and [repr] do outside the plain cases: white
    space, underscores, exponents, fractions, [inf] and [nan], long
    literals, digits of other scripts.  The scripts do not depend on it;
    it is left to the interpreter. *)
Class Builtins : Type := {
  int_other : string -> option Z;
  float_other : string -> option float;
  repr_other : float -> string
}.

(** An interpreter that refuses whatever is not a plain literal; used to
    run the scripts on concrete inputs. *)
Definition plain_only : Builtins :=
  {| int_other := fun _ => None;
     float_other := fun _ => None;
     repr_other := fun _ => "?" |}.

Section WithBuiltins.
Context {B : Builtins}.

(** [int(s)] on a string; [None] stands for the [ValueError]. *)
Definition int_of_str (s : string) : option Z :=
  match plain_literal s with
  | Some (neg, m) => Some (if neg then - m else m)
  | None => int_other s
  end.

(** [float(s)] on a string; [None] stands for the [ValueError]. *)
Definition float_of_str (s : string) : option float :=
  match plain_literal s with
  | Some (neg, m) =>
      let f := PrimFloat.of_uint63 (Uint63.of_Z m) in
      Some (if neg then PrimFloat.opp f else f)
  | None => float_other s
  end.

(** The integer a finite float [m * 2^e] is, when it is one. *)
Definition integral (m : positive) (e : Z) : option Z :=
  if 0 <=? e then Some (Z.pos m * 2 ^ e)
  else if Z.pos m mod 2 ^ (- e) =? 0 then Some (Z.pos m / 2 ^ (- e))
  else None.

(** [repr(f)], which is also [str(f)] and what an f-string writes. *)
Definition repr (f : float) : string :=
  match Prim2SF f with
  | S754_nan => "nan"
  | S754_infinity s => if s then "-inf" else "inf"
  | S754_zero s => if s then "-0.0" else "0.0"
  | S754_finite s m e =>
      match integral m e with
      | Some n =>
          if n <? 2 ^ 53
          then (if s then "-" else "") ++ str n ++ ".0"
          else repr_other f
      | None => repr_other f
      end
  end.

#[export] Instance Str_float : Str float := repr.

(** The lines on which [int] and [float] raise. *)
Definition int_refused (line : string) : Prop := int_of_str line = None.
Definition float_refused (line : string) : Prop := float_of_str line = None.

(** [int(x)] and [float(x)] as the scripts call them. *)
Definition int_ (s : string) : io Z :=
  match int_of_str s with
  | Some z => ret z
  | None => raise ValueError
  end.

Definition float_ (s : string) : io float :=
  match float_of_str s with
  | Some f => ret f
  | None => raise ValueError
  end.

End WithBuiltins.

(** [range(a, b)] *)
Definition range (a b : Z) : list Z :=
  map (fun i => a + Z.of_nat i) (seq 0 (Z.to_nat (b - a))).

(** [for x in xs: body], the loop's variables threaded through as [s]. *)
Fixpoint for_ {A S} (xs : list A) (body : A -> S -> io S) (s : S) : io S :=
  match xs with
  | [] => ret s
  | x :: xs' => bind (body x s) (for_ xs' body)
  end.

End Py.

Import Py.

Declare Scope io_scope.
Delimit Scope io_scope with io.
Notation "x <- m ;; k" := (bind m (fun x => k))
  (at level 61, m at next level, right associativity) : io_scope.
Notation "m ;; k" := (bind m (fun _ => k))
  (at level 61, right associativity) : io_scope.
Local Open Scope io_scope.

(* ===================================================================== *)
(** * test_if_else.py *)
(* ===================================================================== *)

Module IfElse.

Definition test_if_else (x : Z) : io Z :=
  result <-
    (if x >? 10 then
       print "Large number";;
       ret (x * 2)
     else if x >? 5 then
       print "Medium number";;
       ret (x + 5)
     else if x >? 0 then
       print "Small positive number";;
       ret (x + 1)
     else
       print "Zero or negative";;
       ret 0);;
  ret result.

Definition simple_if_else (n : Z) : io unit :=
  if n mod 2 =? 0 then print "Even" else print "Odd".

(** The statements at the end of the file. *)
Definition script : io unit :=
  r <- test_if_else 15;; print r;;
  r <- test_if_else 7;; print r;;
  r <- test_if_else 3;; print r;;
  r <- test_if_else (-1);; print r;;
  r <- simple_if_else 4;; print r;;
  r <- simple_if_else 5;; print r.

(** The band of [x], by the bounds that the four branches leave to it. *)
Inductive band : Type := Large | Medium | Small | Low.

Definition band_message (b : band) : string :=
  match b with
  | Large => "Large number"
  | Medium => "Medium number"
  | Small => "Small positive number"
  | Low => "Zero or negative"
  end.

Definition band_value (b : band) (x : Z) : Z :=
  match b with
  | Large => 2 * x
  | Medium => x + 5
  | Small => x + 1
  | Low => 0
  end.

Definition in_band (b : band) (x : Z) : Prop :=
  match b with
  | Large => 10 < x
  | Medium => 5 < x <= 10
  | Small => 0 < x <= 5
  | Low => x <= 0
  end.

(** The output lines the specification words (its sections 4 and 6),
    each by its fixed text: a line is worded when it starts with one of
    them. *)
Definition spec_wording : list string :=
  [ "The sum is: "; "Rectangle area: "; "You are an adult";
    "You are a minor"; "Number: "; "Total sum: "; "Count: "; "Done!";
    "Simple Calculator"; "Enter first number: "; "Enter second number: ";
    "Negative numbers not allowed"; "Result: "; "Continue? (y/n): ";
    "Goodbye!";
    "Large number"; "Medium number"; "Small positive number";
    "Zero or negative"; "Even"; "Odd" ].

Definition worded (line : string) : bool :=
  existsb (fun text => String.prefix text line) spec_wording.

End IfElse.

(* ===================================================================== *)
(** * examples/simple.py *)
(* ===================================================================== *)

Module Simple.

Definition calculate_area (length width : Z) : Z :=
  let area := length * width in
  area.

(** Variables and basic operations *)
Definition variables_block : io unit :=
  let x := 5 in
  let y := 10 in
  let result := x + y in
  print ("The sum is: " ++ str result).

(** Function call *)
Definition call_block : io unit :=
  let rectangle_area := calculate_area 8 6 in
  print ("Rectangle area: " ++ str rectangle_area).

(** Conditional statement *)
Definition age_block {B : Builtins} : io unit :=
  line <- input "Enter your age: ";;
  age <- int_ line;;
  if age >=? 18 then print "You are an adult" else print "You are a minor".

(** Loop example *)
Definition for_block : io unit :=
  print "Counting from 1 to 5:";;
  for_ (range 1 6) (fun i _ => print ("Number: " ++ str i)) tt.

(** List operations *)
Definition sum_block : io unit :=
  let numbers := [1; 2; 3; 4; 5] in
  total <- for_ numbers (fun num total => ret (total + num)) 0;;
  print ("Total sum: " ++ str total).

(** The passes [while count < 3] still has to make. *)
Definition passes_left (count : Z) : nat := Z.to_nat (3 - count).
Arguments passes_left : simpl never.

(** While loop: [while count < 3], from the value [count] has on entry;
    returns the value it has on exit. *)
Equations? count_loop (count : Z) (w : world) : result Z
  by wf (passes_left count) lt :=
  count_loop count w with Z_lt_dec count 3 => {
    | left _ =>
        (print ("Count: " ++ str count);;
         fun w' => count_loop (count + 1) w') w;
    | right _ => ret count w }.
Proof. unfold passes_left; lia. Qed.

Definition while_block : io unit :=
  let count := 0 in
  count_loop count;;
  print "Done!".

Definition script {B : Builtins} : io unit :=
  variables_block;;
  call_block;;
  age_block;;
  for_block;;
  sum_block;;
  while_block.

(** What the script has written when it ends, for the age [i]. *)
Definition script_output (i : Z) : list event :=
  [Print "The sum is: 15"; Print "Rectangle area: 48";
   Prompt "Enter your age: ";
   Print (if i >=? 18 then "You are an adult" else "You are a minor");
   Print "Counting from 1 to 5:"; Print "Number: 1"; Print "Number: 2";
   Print "Number: 3"; Print "Number: 4"; Print "Number: 5";
   Print "Total sum: 15";
   Print "Count: 0"; Print "Count: 1"; Print "Count: 2"; Print "Done!"].

End Simple.

(* ===================================================================== *)
(** * test_calculator.py *)
(* ===================================================================== *)

Module Calculator.

(** [add(a, b)]; the call is counted in the ghost field [adds]. *)
Definition add (a b : float) : io float :=
  fun w => Ok (a + b)%float (tick w).

(** How one pass through the body of [while True] ends: with [break], or
    with the next pass (by [continue] or at the end of the body). *)
Inductive ctl : Type := Continue | Break.

(** [while True: body], for at most [fuel] passes; returns the number of
    passes made, [done] counting those made before. *)
Fixpoint while_true (fuel : nat) (body : io ctl) (done : nat) : io nat :=
  match fuel with
  | O => fun w => OutOfFuel w
  | S fuel' =>
      c <- body;;
      match c with
      | Break => ret (S done)
      | Continue => while_true fuel' body (S done)
      end
  end.

Section WithBuiltins.
Context {B : Builtins}.

(** The body of the loop of [main]. *)
Definition iteration : io ctl :=
  line1 <- input "Enter first number: ";;
  num1 <- float_ line1;;
  line2 <- input "Enter second number: ";;
  num2 <- float_ line2;;
  if (num1 <? 0)%float || (num2 <? 0)%float then
    print "Negative numbers not allowed";;
    ret Continue
  else
    result <- add num1 num2;;
    print ("Result: " ++ str result);;
    choice <- input "Continue? (y/n): ";;
    if negb (lower choice =? "y")%string then ret Break else ret Continue.

Definition main_loop (fuel : nat) : io nat := while_true fuel iteration 0%nat.

Definition main (fuel : nat) : io unit :=
  print "Simple Calculator";;
  main_loop fuel;;
  print "Goodbye!".

(** What a pass writes when it refuses the pair. *)
Definition rejected_events : list event :=
  [Prompt "Enter first number: "; Prompt "Enter second number: ";
   Print "Negative numbers not allowed"].

(** What a pass writes, up to its last prompt, when it adds [a] and [b]. *)
Definition answered_events (a b : float) : list event :=
  [Prompt "Enter first number: "; Prompt "Enter second number: ";
   Print ("Result: " ++ str (a + b)%float); Prompt "Continue? (y/n): "].

(** The pair of lines is read as two numbers of which one is negative. *)
Definition rejects (line1 line2 : string) : bool :=
  match float_of_str line1, float_of_str line2 with
  | Some a, Some b => (a <? 0)%float || (b <? 0)%float
  | _, _ => false
  end.

(** The input lines of a sequence of pairs, and what the loop writes when
    it refuses each of them. *)
Definition lines_of (pairs : list (string * string)) : list string :=
  flat_map (fun p => [fst p; snd p]) pairs.

Definition rejections (pairs : list (string * string)) : list event :=
  flat_map (fun _ => rejected_events) pairs.

(** The script calls [main()].  Every pass that does not end the loop
    reads at least two lines, so the bound of one pass more than there are
    lines is never reached ([calculator_ends] below), and a larger bound
    gives the same run ([main_is_script]). *)
Definition script : io unit :=
  fun w => main (S (List.length (stdin w))) w.

End WithBuiltins.

End Calculator.

(* ===================================================================== *)
(** * Sessions of the calculator *)
(* ===================================================================== *)

Module Session.
Import Calculator.

(** A float, as the library specifies it, that is not below zero: a
    zero of either sign, a positive number, plus infinity or a NaN. *)
Definition not_below_zero (x : spec_float) : bool :=
  match x with
  | S754_infinity true | S754_finite true _ _ => false
  | _ => true
  end.

(** The lines the loop prints, told apart: a result, a refusal. *)
Definition is_result (e : event) : bool :=
  match e with
  | Print line => String.prefix "Result: " line
  | Prompt _ => false
  end.

Definition is_refusal (e : event) : bool :=
  match e with
  | Print line => (line =? "Negative numbers not allowed")%string
  | Prompt _ => false
  end.

Definition results (es : list event) : nat :=
  List.length (filter is_result es).

Definition refusals (es : list event) : nat :=
  List.length (filter is_refusal es).

(** What the loop of [main] can write: its three prompts, a refusal, a
    result. *)
Definition loop_event (e : event) : Prop :=
  e = Prompt "Enter first number: "
  \/ e = Prompt "Enter second number: "
  \/ e = Prompt "Continue? (y/n): "
  \/ is_refusal e = true
  \/ is_result e = true.

(** A pass through the loop that is followed by another: the lines of a
    pair that is refused, or those of a pair that is added and an answer
    to go on. *)
Inductive round : Type :=
| Refused (line1 line2 : string)
| Added (line1 line2 answer : string).

Definition round_lines (r : round) : list string :=
  match r with
  | Refused line1 line2 => [line1; line2]
  | Added line1 line2 answer => [line1; line2; answer]
  end.

Definition round_adds (r : round) : nat :=
  match r with
  | Refused _ _ => 0
  | Added _ _ _ => 1
  end.

Section WithBuiltins.
Context {B : Builtins}.

(** The pair of lines is read as two numbers of which none is negative. *)
Definition accepts (line1 line2 : string) : bool :=
  match float_of_str line1, float_of_str line2 with
  | Some a, Some b => negb ((a <? 0)%float || (b <? 0)%float)
  | _, _ => false
  end.

(** The lines of the round are read as the round says. *)
Definition goes_on (r : round) : bool :=
  match r with
  | Refused line1 line2 => rejects line1 line2
  | Added line1 line2 answer =>
      accepts line1 line2 && (lower answer =? "y")%string
  end.

(** What the pass of a round writes. *)
Definition round_events (r : round) : list event :=
  match r with
  | Refused _ _ => rejected_events
  | Added line1 line2 _ =>
      match float_of_str line1, float_of_str line2 with
      | Some a, Some b => answered_events a b
      | _, _ => []
      end
  end.

End WithBuiltins.

(** The lines, the number of calls of [add] and the output of a sequence
    of rounds. *)
Definition session_lines (rounds : list round) : list string :=
  flat_map round_lines rounds.

Definition session_adds (rounds : list round) : nat :=
  list_sum (map round_adds rounds).

Definition session_events {B : Builtins} (rounds : list round) : list event :=
  flat_map round_events rounds.

(** [w'] is where a run from [w] can be: it has read the lines
    [consumed] and no others, written [es] after what was written, all of
    it by the loop, and called [add] once for each result in [es]. *)
Definition accounted (w w' : world) (consumed : list string)
  (es : list event) : Prop :=
  stdin w = (consumed ++ stdin w')%list
  /\ stdout w' = (stdout w ++ es)%list
  /\ adds w' = (adds w + results es)%nat
  /\ Forall loop_event es.

End Session.

(* ===================================================================== *)
(** * The two functions on every number *)
(* ===================================================================== *)

(** [calculate_area] and [test_if_else] take whatever they are given.
    The scripts call them with [int]s, on which the modules [Simple] and
    [IfElse] embed them; here they are on the numbers of Python that
    reach them from a caller: an [int] or a [float]. *)
Module Numeric.

Inductive num : Type :=
| Int (z : Z)
| Float (f : float).

(** How a call ends: [*] between an [int] and a [float] can raise. *)
Inductive outcome (A : Type) : Type :=
| Returns (a : A)
| OverflowError.
Arguments Returns {A} a.
Arguments OverflowError {A}.

(** The [float] an [int] is converted to when it meets a [float] in an
    operation: the nearest one, ties to even.  [None] stands for the
    [OverflowError] "int too large to convert to float". *)
Definition float_of_int (z : Z) : option float :=
  match binary_normalize prec emax z 0 false with
  | S754_infinity _ => None
  | sf => Some (SF2Prim sf)
  end.

(** [x * y] *)
Definition mul (x y : num) : outcome num :=
  match x, y with
  | Int a, Int b => Returns (Int (a * b))
  | Float a, Float b => Returns (Float (a * b))
  | Int a, Float b =>
      match float_of_int a with
      | Some a' => Returns (Float (a' * b))
      | None => OverflowError
      end
  | Float a, Int b =>
      match float_of_int b with
      | Some b' => Returns (Float (a * b'))
      | None => OverflowError
      end
  end.

Definition calculate_area (length width : num) : outcome num :=
  let area := mul length width in
  area.

(** The sentence of the specification on [calculate_area], as stated:
    no error condition on any numeric input. *)
Definition no_error_condition : Prop :=
  forall length width, exists area, calculate_area length width = Returns area.

(** The small [int] constants of [test_if_else] (0, 1, 2, 5 and 10) as
    the [float] they are converted to, exactly. *)
Definition const (k : Z) : float := PrimFloat.of_uint63 (Uint63.of_Z k).

(** [x > k], [x * k] and [x + k] for such a constant [k]. *)
Definition gt_const (x : num) (k : Z) : bool :=
  match x with
  | Int z => z >? k
  | Float f => (const k <? f)%float
  end.

Definition mul_const (x : num) (k : Z) : num :=
  match x with
  | Int z => Int (z * k)
  | Float f => Float (f * const k)
  end.

Definition add_const (x : num) (k : Z) : num :=
  match x with
  | Int z => Int (z + k)
  | Float f => Float (f + const k)
  end.

Definition test_if_else (x : num) : io num :=
  result <-
    (if gt_const x 10 then
       print "Large number";;
       ret (mul_const x 2)
     else if gt_const x 5 then
       print "Medium number";;
       ret (add_const x 5)
     else if gt_const x 0 then
       print "Small positive number";;
       ret (add_const x 1)
     else
       print "Zero or negative";;
       ret (Int 0));;
  ret result.

(** [x < 0], [x <= 0], [x == 0] and [x > 0]. *)
Definition lt0 (x : num) : bool :=
  match x with
  | Int z => z <? 0
  | Float f => (f <? 0)%float
  end.

Definition le0 (x : num) : bool :=
  match x with
  | Int z => z <=? 0
  | Float f => (f <=? 0)%float
  end.

Definition eq0 (x : num) : bool :=
  match x with
  | Int z => z =? 0
  | Float f => (f =? 0)%float
  end.

Definition gt0 (x : num) : bool := gt_const x 0.

(** What is said of the sign of the result of [test_if_else], at the
    input [x]: the result is not negative, is 0 if and only if [x <= 0],
    and is positive when [x] is. *)
Definition sign_rule (x : num) : Prop :=
  forall w,
    exists r,
      value (test_if_else x w) = Some r
      /\ lt0 r = false
      /\ (eq0 r = true <-> le0 x = true)
      /\ (gt0 x = true -> gt0 r = true).

(** A float, as the library specifies it, that is above zero. *)
Definition above_zero (x : spec_float) : bool :=
  match x with
  | S754_infinity false | S754_finite false _ _ => true
  | _ => false
  end.

End Numeric.

(* ===================================================================== *)
(** * Facts about the runtime *)
(* ===================================================================== *)

Lemma emit_emit (w : world) (es es' : list event) :
  emit (emit w es) es' = emit w (es ++ es').
Proof. unfold emit; simpl. now rewrite app_assoc. Qed.

Lemma emit_nil (w : world) : emit w [] = w.
Proof. destruct w; unfold emit; simpl. now rewrite app_nil_r. Qed.

Lemma reads_emit (w : world) (es : list event) (rest : list string) :
  reads (emit w es) rest = emit (reads w rest) es.
Proof. reflexivity. Qed.

Lemma tick_emit (w : world) (es : list event) :
  tick (emit w es) = emit (tick w) es.
Proof. reflexivity. Qed.

Lemma reads_stdin (w : world) : reads w (stdin w) = w.
Proof. now destruct w. Qed.

Lemma written_emit (w : world) (es : list event) (rest : list string) :
  written w (emit (reads w rest) es) = es.
Proof.
  unfold written, emit, reads; simpl.
  rewrite skipn_app, skipn_all, Nat.sub_diag. reflexivity.
Qed.

Lemma print_spec {A} `{Str A} (x : A) (w : world) :
  print x w = Ok tt (emit w [Print (str x)]).
Proof. reflexivity. Qed.

Lemma bind_ok {A C} (m : io A) (k : A -> io C) (w w' : world) (a : A) :
  m w = Ok a w' -> bind m k w = k a w'.
Proof. intros E. unfold bind. now rewrite E. Qed.

Lemma bind_raise {A C} (m : io A) (k : A -> io C) (w w' : world) (e : exn) :
  m w = Raise e w' -> bind m k w = Raise e w'.
Proof. intros E. unfold bind. now rewrite E. Qed.

(* ===================================================================== *)
(** * test_if_else.py: the banded classifier *)
(* ===================================================================== *)

Section IfElseFacts.
Import IfElse.

(** Each branch of [test_if_else], by the test that selects it. *)
Lemma test_if_else_large (x : Z) (w : world) :
  10 < x -> test_if_else x w = Ok (x * 2) (emit w [Print "Large number"]).
Proof.
  intros Hx. unfold test_if_else.
  destruct (Z.gtb_spec x 10) as [_ | Hn]; [reflexivity | lia].
Qed.

Lemma test_if_else_medium (x : Z) (w : world) :
  5 < x <= 10 -> test_if_else x w = Ok (x + 5) (emit w [Print "Medium number"]).
Proof.
  intros Hx. unfold test_if_else.
  destruct (Z.gtb_spec x 10); [lia |].
  destruct (Z.gtb_spec x 5); [reflexivity | lia].
Qed.

Lemma test_if_else_small (x : Z) (w : world) :
  0 < x <= 5 ->
  test_if_else x w = Ok (x + 1) (emit w [Print "Small positive number"]).
Proof.
  intros Hx. unfold test_if_else.
  destruct (Z.gtb_spec x 10); [lia |].
  destruct (Z.gtb_spec x 5); [lia |].
  destruct (Z.gtb_spec x 0); [reflexivity | lia].
Qed.

Lemma test_if_else_low (x : Z) (w : world) :
  x <= 0 -> test_if_else x w = Ok 0 (emit w [Print "Zero or negative"]).
Proof.
  intros Hx. unfold test_if_else.
  destruct (Z.gtb_spec x 10); [lia |].
  destruct (Z.gtb_spec x 5); [lia |].
  destruct (Z.gtb_spec x 0); [lia | reflexivity].
Qed.

Lemma in_band_total (x : Z) : exists b, in_band b x.
Proof.
  destruct (Z_lt_dec 10 x); [now exists Large |].
  destruct (Z_lt_dec 5 x); [exists Medium; simpl; lia |].
  destruct (Z_lt_dec 0 x); [exists Small; simpl; lia |].
  exists Low; simpl; lia.
Qed.


(** [test_if_else] prints the message of the band of [x] and returns its
    value. *)
Lemma test_if_else_in_band (x : Z) (w : world) (b : band) :
  in_band b x ->
  test_if_else x w = Ok (band_value b x) (emit w [Print (band_message b)]).
Proof.
  destruct b; cbn [in_band band_value band_message]; intros Hb.
  - rewrite test_if_else_large by lia. f_equal; lia.
  - now apply test_if_else_medium.
  - now apply test_if_else_small.
  - now apply test_if_else_low.
Qed.


(** On an integer [x], [test_if_else x] returns a value that is not
    negative, that is 0 exactly when [x <= 0], and that is positive
    whenever [x] is. *)
Lemma test_if_else_sign_int (x : Z) (w : world) :
  exists r,
    value (test_if_else x w) = Some r
    /\ 0 <= r
    /\ (r = 0 <-> x <= 0)
    /\ (0 < x -> 0 < r).
Proof.
  destruct (in_band_total x) as [b Hb].
  exists (band_value b x).
  rewrite (test_if_else_in_band x w b Hb). cbn [value].
  destruct b; cbn [in_band band_value] in Hb |- *;
    (split; [reflexivity | lia]).
Qed.

(** [simple_if_else] prints the parity and returns nothing. *)
Lemma simple_if_else_spec (n : Z) (w : world) :
  simple_if_else n w
  = Ok tt (emit w [Print (if n mod 2 =? 0 then "Even" else "Odd")]).
Proof. unfold simple_if_else. now destruct (n mod 2 =? 0). Qed.

(** The whole script: it reads nothing and ends normally. *)
Lemma ifelse_script_spec (w : world) :
  script w
  = Ok tt (emit w [Print "Large number"; Print "30";
                   Print "Medium number"; Print "12";
                   Print "Small positive number"; Print "4";
                   Print "Zero or negative"; Print "0";
                   Print "Even"; Print "None";
                   Print "Odd"; Print "None"]).
Proof.
  unfold script.
  rewrite (bind_ok _ _ _ _ _ (test_if_else_large 15 _ ltac:(lia))).
  rewrite (bind_ok _ _ _ _ _ (print_spec _ _)).
  rewrite (bind_ok _ _ _ _ _ (test_if_else_medium 7 _ ltac:(lia))).
  rewrite (bind_ok _ _ _ _ _ (print_spec _ _)).
  rewrite (bind_ok _ _ _ _ _ (test_if_else_small 3 _ ltac:(lia))).
  rewrite (bind_ok _ _ _ _ _ (print_spec _ _)).
  rewrite (bind_ok _ _ _ _ _ (test_if_else_low (-1) _ ltac:(lia))).
  rewrite (bind_ok _ _ _ _ _ (print_spec _ _)).
  rewrite (bind_ok _ _ _ _ _ (simple_if_else_spec 4 _)).
  rewrite (bind_ok _ _ _ _ _ (print_spec _ _)).
  rewrite (bind_ok _ _ _ _ _ (simple_if_else_spec 5 _)).
  rewrite print_spec, !emit_emit. reflexivity.
Qed.

(** C10: [simple_if_else n] returns [None] for every [n], so
    [print(simple_if_else(n))] writes the line "None" right after the
    line "Even" or "Odd"; the script's output has both such lines, after
    "Even" and after "Odd", and "None" is not among the output lines the
    specification words, as "Even" and "Odd" are. *)
Theorem simple_if_else_prints_None (n : Z) (w : world) :
  value (simple_if_else n w) = Some tt
  /\ (r <- simple_if_else n;; print r) w
     = Ok tt (emit w [Print (if n mod 2 =? 0 then "Even" else "Odd");
                      Print "None"])
  /\ script w
     = Ok tt (emit w
                [Print "Large number"; Print "30";
                 Print "Medium number"; Print "12";
                 Print "Small positive number"; Print "4";
                 Print "Zero or negative"; Print "0";
                 Print "Even"; Print "None";
                 Print "Odd"; Print "None"])
  /\ worded "None" = false
  /\ worded "Even" = true
  /\ worded "Odd" = true.
Proof.
  repeat apply conj.
  - now rewrite simple_if_else_spec.
  - rewrite (bind_ok _ _ _ _ _ (simple_if_else_spec n w)).
    rewrite print_spec, emit_emit. reflexivity.
  - apply ifelse_script_spec.
  - reflexivity.
  - reflexivity.
  - reflexivity.
Qed.

End IfElseFacts.

(* ===================================================================== *)
(** * examples/simple.py *)
(* ===================================================================== *)

Section SimpleFacts.
Import Simple.
Context {B : Builtins}.

Lemma variables_block_spec (w : world) :
  variables_block w = Ok tt (emit w [Print "The sum is: 15"]).
Proof. reflexivity. Qed.

Lemma call_block_spec (w : world) :
  call_block w = Ok tt (emit w [Print "Rectangle area: 48"]).
Proof. reflexivity. Qed.

(** The age check on a line that [int] reads as [i]. *)
Lemma age_block_spec (w : world) (line : string) (rest : list string) (i : Z) :
  stdin w = line :: rest ->
  int_of_str line = Some i ->
  age_block w
  = Ok tt (emit (reads w rest)
             [Prompt "Enter your age: ";
              Print (if i >=? 18 then "You are an adult"
                     else "You are a minor")]).
Proof.
  intros Hin Hi. unfold age_block, bind, input, int_. rewrite Hin, Hi.
  unfold ret. destruct (i >=? 18); rewrite print_spec, emit_emit; reflexivity.
Qed.

(** The age check on a line that [int] refuses: the [ValueError] ends it
    right after the prompt. *)
Lemma age_block_bad_line (w : world) (line : string) (rest : list string) :
  stdin w = line :: rest ->
  int_of_str line = None ->
  age_block w = Raise ValueError (emit (reads w rest) [Prompt "Enter your age: "]).
Proof.
  intros Hin Hi. unfold age_block, bind, input, int_. now rewrite Hin, Hi.
Qed.

(** The age check at the end of the input. *)
Lemma age_block_eof (w : world) :
  stdin w = [] ->
  age_block w = Raise EOFError (emit w [Prompt "Enter your age: "]).
Proof. intros Hin. unfold age_block, bind, input. now rewrite Hin. Qed.

Lemma for_block_spec (w : world) :
  for_block w
  = Ok tt (emit w [Print "Counting from 1 to 5:"; Print "Number: 1";
                   Print "Number: 2"; Print "Number: 3"; Print "Number: 4";
                   Print "Number: 5"]).
Proof.
  unfold for_block. change (range 1 6) with [1; 2; 3; 4; 5].
  cbn [for_]. unfold bind. rewrite !print_spec, !emit_emit. reflexivity.
Qed.

Lemma sum_block_spec (w : world) :
  sum_block w = Ok tt (emit w [Print "Total sum: 15"]).
Proof. reflexivity. Qed.

(** One pass of the while loop, and its exit. *)
Lemma count_loop_pass (count : Z) (w : world) :
  count < 3 ->
  count_loop count w
  = count_loop (count + 1) (emit w [Print ("Count: " ++ str count)]).
Proof.
  intros Hc. rewrite count_loop_equation_1.
  destruct (Z_lt_dec count 3) as [Hlt | Hn]; [reflexivity | contradiction].
Qed.

Lemma count_loop_exit (count : Z) (w : world) :
  3 <= count -> count_loop count w = Ok count w.
Proof.
  intros Hc. rewrite count_loop_equation_1.
  destruct (Z_lt_dec count 3) as [Hlt | Hge]; [lia | reflexivity].
Qed.

(** The while loop ends from every value of [count], with [count] at
    least 3 and no input read. *)
Lemma count_loop_terminates (n : nat) :
  forall (count : Z) (w : world),
    passes_left count = n ->
    exists es, count_loop count w = Ok (Z.max count 3) (emit w es).
Proof.
  induction n as [| n IH]; intros count w Hn; unfold passes_left in Hn.
  - exists []. rewrite count_loop_exit by lia. rewrite emit_nil.
    f_equal. lia.
  - rewrite count_loop_pass by lia.
    destruct (IH (count + 1) (emit w [Print ("Count: " ++ str count)]))
      as [es Hes]; [unfold passes_left; lia |].
    exists (Print ("Count: " ++ str count) :: es).
    rewrite Hes, emit_emit. f_equal. lia.
Qed.

Lemma count_loop_from_0 (w : world) :
  count_loop 0 w
  = Ok 3 (emit w [Print "Count: 0"; Print "Count: 1"; Print "Count: 2"]).
Proof.
  rewrite count_loop_pass by lia. cbn [Z.add].
  rewrite count_loop_pass by lia. cbn [Z.add Pos.add Pos.succ].
  rewrite count_loop_pass by lia. cbn [Z.add Pos.add Pos.succ].
  rewrite count_loop_exit by lia. rewrite !emit_emit. reflexivity.
Qed.

Lemma while_block_spec (w : world) :
  while_block w
  = Ok tt (emit w [Print "Count: 0"; Print "Count: 1"; Print "Count: 2";
                   Print "Done!"]).
Proof.
  unfold while_block. cbn zeta.
  rewrite (bind_ok _ _ _ _ _ (count_loop_from_0 w)).
  rewrite print_spec, emit_emit. reflexivity.
Qed.

(** The whole script on an input whose first line [int] reads as [i]. *)
Lemma script_spec (w : world) (line : string) (rest : list string) (i : Z) :
  stdin w = line :: rest ->
  int_of_str line = Some i ->
  script w = Ok tt (emit (reads w rest) (script_output i)).
Proof.
  intros Hin Hi. unfold script.
  rewrite (bind_ok _ _ _ _ _ (variables_block_spec _)).
  rewrite (bind_ok _ _ _ _ _ (call_block_spec _)).
  erewrite bind_ok
    by (apply (age_block_spec _ line rest i); [exact Hin | exact Hi]).
  rewrite (bind_ok _ _ _ _ _ (for_block_spec _)).
  rewrite (bind_ok _ _ _ _ _ (sum_block_spec _)).
  rewrite while_block_spec.
  rewrite !reads_emit, !emit_emit. reflexivity.
Qed.

Lemma script_fresh (line : string) (rest : list string) (i : Z) :
  int_of_str line = Some i ->
  script (run_on (line :: rest))
  = Ok tt {| stdin := rest; stdout := script_output i; adds := 0 |}.
Proof.
  intros Hi.
  now rewrite (script_spec (run_on (line :: rest)) line rest i eq_refl Hi).
Qed.

(** The whole script on an input whose first line [int] refuses. *)
Lemma script_bad_line (w : world) (line : string) (rest : list string) :
  stdin w = line :: rest ->
  int_of_str line = None ->
  script w
  = Raise ValueError
      (emit (reads w rest)
         [Print "The sum is: 15"; Print "Rectangle area: 48";
          Prompt "Enter your age: "]).
Proof.
  intros Hin Hi. unfold script.
  rewrite (bind_ok _ _ _ _ _ (variables_block_spec _)).
  rewrite (bind_ok _ _ _ _ _ (call_block_spec _)).
  erewrite bind_raise
    by (apply (age_block_bad_line _ line rest); [exact Hin | exact Hi]).
  rewrite !reads_emit, !emit_emit. reflexivity.
Qed.

(** The whole script on no input. *)
Lemma script_eof (w : world) :
  stdin w = [] ->
  script w
  = Raise EOFError
      (emit w [Print "The sum is: 15"; Print "Rectangle area: 48";
               Prompt "Enter your age: "]).
Proof.
  intros Hin. unfold script.
  rewrite (bind_ok _ _ _ _ _ (variables_block_spec _)).
  rewrite (bind_ok _ _ _ _ _ (call_block_spec _)).
  erewrite bind_raise by (apply age_block_eof; exact Hin).
  rewrite !emit_emit. reflexivity.
Qed.

(** Which of the two answers of the age check is in the output. *)
Lemma adult_in_output (i : Z) :
  In (Print "You are an adult") (script_output i) <-> i >= 18.
Proof.
  unfold script_output. destruct (i >=? 18) eqn:E.
  - apply Z.geb_le in E. split; [lia | intros _; simpl; tauto].
  - split; [| intros H; apply Z.ge_le, Z.geb_le in H; congruence].
    simpl. intros H.
    repeat (destruct H as [H | H]; [discriminate H |]). contradiction.
Qed.

Lemma minor_in_output (i : Z) :
  In (Print "You are a minor") (script_output i) <-> i < 18.
Proof.
  unfold script_output. destruct (i >=? 18) eqn:E.
  - apply Z.geb_le in E. split; [| lia].
    simpl. intros H.
    repeat (destruct H as [H | H]; [discriminate H |]). contradiction.
  - split; [| intros _; simpl; tauto].
    intros _. destruct (Z_lt_dec i 18) as [Hlt | Hge]; [exact Hlt |].
    assert (Hle : 18 <= i) by lia. apply Z.geb_le in Hle. congruence.
Qed.

(** C6: for every integer [i] that the age check reads, the script runs
    to its end and prints "You are an adult" if and only if [i >= 18],
    and "You are a minor" if and only if [i < 18]. *)
Theorem age_check_adult_iff
  (line : string) (rest : list string) (i : Z) :
  int_of_str line = Some i ->
  let r := script (run_on (line :: rest)) in
  value r = Some tt
  /\ (In (Print "You are an adult") (stdout (final r)) <-> i >= 18)
  /\ (In (Print "You are a minor") (stdout (final r)) <-> i < 18).
Proof.
  intros Hi r. subst r. rewrite (script_fresh line rest i Hi).
  cbn [value final stdout]. split; [reflexivity |].
  split; [apply adult_in_output | apply minor_in_output].
Qed.

(** On integers [length] and [width], zero and negative ones too,
    [calculate_area length width] is [length * width]: the function has
    no test on its arguments and no effect, and the script's call with 8
    and 6 prints 48. *)
Lemma calculate_area_int (length width : Z) :
  calculate_area length width = length * width
  /\ calculate_area 0 width = 0
  /\ calculate_area length 0 = 0
  /\ calculate_area (- length) width = - calculate_area length width
  /\ forall w, call_block w = Ok tt (emit w [Print "Rectangle area: 48"]).
Proof.
  unfold calculate_area. cbn zeta.
  repeat apply conj; try lia. exact call_block_spec.
Qed.

(** C8: the while loop entered with [count = 0] ends with [count = 3]
    after printing "Count: 0", "Count: 1", "Count: 2" in this order and
    nothing else; "Done!" is printed next; "Count: 3" is never printed;
    the loop ends from whatever value [count] has on entry; and the four
    lines end the output of the whole script. *)
Theorem while_counter_prints (w : world) :
  count_loop 0 w
  = Ok 3 (emit w [Print "Count: 0"; Print "Count: 1"; Print "Count: 2"])
  /\ while_block w
     = Ok tt (emit w [Print "Count: 0"; Print "Count: 1"; Print "Count: 2";
                      Print "Done!"])
  /\ ~ In (Print "Count: 3") (stdout (final (while_block (run_on (stdin w)))))
  /\ (forall count,
        exists es, count_loop count w = Ok (Z.max count 3) (emit w es))
  /\ (forall line rest i,
        int_of_str line = Some i ->
        exists before,
          script (run_on (line :: rest))
          = Ok tt {| stdin := rest;
                     stdout := before ++ [Print "Count: 0"; Print "Count: 1";
                                          Print "Count: 2"; Print "Done!"];
                     adds := 0 |}
          /\ ~ In (Print "Count: 3") before).
Proof.
  repeat apply conj.
  - apply count_loop_from_0.
  - apply while_block_spec.
  - rewrite while_block_spec. simpl. intros H.
    repeat (destruct H as [H | H]; [discriminate H |]). contradiction.
  - intros count. exact (count_loop_terminates _ count w eq_refl).
  - intros line rest i Hi.
    exists (firstn 11 (script_output i)). split.
    + rewrite (script_fresh line rest i Hi). reflexivity.
    + simpl. intros H.
      repeat (destruct H as [H | H];
              [try discriminate H; destruct (i >=? 18); discriminate H |]).
      contradiction.
Qed.

End SimpleFacts.

(* ===================================================================== *)
(** * test_calculator.py *)
(* ===================================================================== *)

Section CalculatorFacts.
Import Calculator.
Context {B : Builtins}.

(** One pass through the body of the loop, by what is there to read. *)
Lemma iteration_unfold (w : world) :
  iteration w =
  match stdin w with
  | [] => Raise EOFError (emit w [Prompt "Enter first number: "])
  | line1 :: rest1 =>
      match float_of_str line1 with
      | None =>
          Raise ValueError (emit (reads w rest1) [Prompt "Enter first number: "])
      | Some num1 =>
          match rest1 with
          | [] =>
              Raise EOFError
                (emit (reads w [])
                   [Prompt "Enter first number: ";
                    Prompt "Enter second number: "])
          | line2 :: rest2 =>
              match float_of_str line2 with
              | None =>
                  Raise ValueError
                    (emit (reads w rest2)
                       [Prompt "Enter first number: ";
                        Prompt "Enter second number: "])
              | Some num2 =>
                  if (num1 <? 0)%float || (num2 <? 0)%float
                  then Ok Continue (emit (reads w rest2) rejected_events)
                  else
                    match rest2 with
                    | [] =>
                        Raise EOFError
                          (emit (tick (reads w []))
                             (answered_events num1 num2))
                    | choice :: rest3 =>
                        Ok (if negb (lower choice =? "y")%string
                            then Break else Continue)
                           (emit (tick (reads w rest3))
                              (answered_events num1 num2))
                    end
              end
          end
      end
  end.
Proof.
  unfold iteration, bind, input, float_.
  destruct w as [inp out n]; cbn [stdin].
  destruct inp as [| line1 rest1]; [reflexivity |].
  destruct (float_of_str line1) as [num1 |]; [| reflexivity].
  cbn [ret emit reads stdin stdout adds].
  destruct rest1 as [| line2 rest2];
    [unfold emit; cbn; now rewrite <- app_assoc |].
  destruct (float_of_str line2) as [num2 |];
    [| unfold raise, emit; cbn; now rewrite <- app_assoc].
  cbn [ret].
  destruct ((num1 <? 0)%float || (num2 <? 0)%float).
  - unfold print, ret, emit, rejected_events; cbn.
    now rewrite <- !app_assoc.
  - unfold add, print, tick, emit, answered_events; cbn.
    destruct rest2 as [| choice rest3]; cbn.
    + now rewrite <- !app_assoc.
    + destruct (negb (lower choice =? "y")%string);
        unfold ret; now rewrite <- !app_assoc.
Qed.

(** A pass never hits the bound on passes: it has no loop of its own. *)
Lemma iteration_fuel (w w' : world) : iteration w <> OutOfFuel w'.
Proof.
  rewrite iteration_unfold.
  repeat match goal with
         | |- context [match ?x with _ => _ end] => destruct x
         end; discriminate.
Qed.

(** A pass that ends normally has read at least two lines. *)
Lemma iteration_reads (w w' : world) (c : ctl) :
  iteration w = Ok c w' ->
  (List.length (stdin w') + 2 <= List.length (stdin w))%nat.
Proof.
  rewrite iteration_unfold.
  destruct (stdin w) as [| line1 rest1]; [discriminate |].
  destruct (float_of_str line1); [| discriminate].
  destruct rest1 as [| line2 rest2]; [discriminate |].
  destruct (float_of_str line2); [| discriminate].
  destruct (_ || _).
  - intros [= _ <-]. simpl. lia.
  - destruct rest2 as [| choice rest3]; [discriminate |].
    intros [= _ <-]. simpl. lia.
Qed.

(** The loop, one pass at a time. *)
Lemma while_true_continue (fuel done : nat) (body : io ctl) (w w' : world) :
  body w = Ok Continue w' ->
  while_true (S fuel) body done w = while_true fuel body (S done) w'.
Proof. intros E. cbn [while_true]. now rewrite (bind_ok _ _ _ _ _ E). Qed.

Lemma while_true_break (fuel done : nat) (body : io ctl) (w w' : world) :
  body w = Ok Break w' ->
  while_true (S fuel) body done w = Ok (S done) w'.
Proof. intros E. cbn [while_true]. now rewrite (bind_ok _ _ _ _ _ E). Qed.

Lemma while_true_raise (fuel done : nat) (body : io ctl) (w w' : world)
  (e : exn) :
  body w = Raise e w' ->
  while_true (S fuel) body done w = Raise e w'.
Proof. intros E. cbn [while_true]. now rewrite (bind_raise _ _ _ _ _ E). Qed.

(** With more passes allowed than there are lines, the loop of [main]
    ends before the bound. *)
Lemma main_loop_fuel (fuel : nat) :
  forall (done : nat) (w w' : world),
    (List.length (stdin w) < fuel)%nat ->
    while_true fuel iteration done w <> OutOfFuel w'.
Proof.
  induction fuel as [| fuel IH]; intros done w w' Hlen; [lia |].
  destruct (iteration w) as [[] w1 | e w1 | w1] eqn:E.
  - rewrite (while_true_continue _ _ _ _ _ E).
    apply IH. apply iteration_reads in E. lia.
  - now rewrite (while_true_break _ _ _ _ _ E).
  - now rewrite (while_true_raise _ _ _ _ _ _ E).
  - now apply iteration_fuel in E.
Qed.

(** Once the loop ends before the bound, a larger bound changes nothing. *)
Lemma while_true_more_fuel (body : io ctl) (fuel : nat) :
  forall (extra done : nat) (w : world),
    (forall w', while_true fuel body done w <> OutOfFuel w') ->
    while_true (extra + fuel) body done w = while_true fuel body done w.
Proof.
  induction fuel as [| fuel IH]; intros extra done w Hend.
  - now destruct (Hend w).
  - rewrite Nat.add_succ_r. revert Hend. cbn [while_true]. unfold bind.
    destruct (body w) as [[] w1 | e w1 | w1]; intros Hend;
      try reflexivity.
    apply IH. exact Hend.
Qed.

(** [main] with any bound above the number of lines is the script. *)
Lemma main_is_script (fuel : nat) (w : world) :
  (List.length (stdin w) < fuel)%nat -> main fuel w = script w.
Proof.
  intros Hlen. unfold script, main, main_loop, bind.
  rewrite !print_spec.
  replace fuel
    with ((fuel - S (List.length (stdin w))) + S (List.length (stdin w)))%nat
    by lia.
  rewrite while_true_more_fuel; [reflexivity |].
  intros w'. apply main_loop_fuel. simpl. lia.
Qed.

(** [str.lower()] gives "y" on "y" and "Y" only. *)
Lemma lower_char_y (c : ascii) :
  lower_char c = "y"%char -> c = "y"%char \/ c = "Y"%char.
Proof.
  destruct c as [[] [] [] [] [] [] [] []]; cbv; intros H;
    try discriminate H; auto.
Qed.

Lemma lower_is_y (choice : string) :
  lower choice = "y" <-> choice = "y" \/ choice = "Y".
Proof.
  split.
  - destruct choice as [| c [| c' rest]]; cbn [lower]; intros H;
      try discriminate H.
    injection H as H. destruct (lower_char_y c H) as [-> | ->]; auto.
  - intros [-> | ->]; reflexivity.
Qed.

Lemma written_after (w w0 : world) (es : list event) :
  stdout w0 = stdout w -> written w (emit w0 es) = es.
Proof.
  intros E. unfold written, emit; cbn [stdout]. rewrite E.
  rewrite skipn_app, skipn_all, Nat.sub_diag. reflexivity.
Qed.

(** A pass on a pair of numbers of which none is negative, followed by
    an answer. *)
Lemma iteration_answered
  (w : world) (line1 line2 choice : string) (rest : list string)
  (a b : float) :
  stdin w = line1 :: line2 :: choice :: rest ->
  float_of_str line1 = Some a ->
  float_of_str line2 = Some b ->
  ((a <? 0) || (b <? 0))%float = false ->
  iteration w
  = Ok (if negb (lower choice =? "y")%string then Break else Continue)
       (emit (tick (reads w rest)) (answered_events a b)).
Proof.
  intros Hin Ha Hb Hsign. rewrite iteration_unfold, Hin, Ha, Hb, Hsign.
  reflexivity.
Qed.

(** C1 (as the code has it): after a result is printed the program
    prompts "Continue? (y/n): ".  For every answer, the loop ends, and
    "Goodbye!" is printed, exactly when the answer in lower case differs
    from "y"; the empty answer is such an answer and ends the loop.  The
    loop makes another pass exactly when the answer in lower case is "y",
    that is for the answers "y" and "Y" only. *)
Theorem continue_prompt_exits
  (w : world) (line1 line2 choice : string) (rest : list string)
  (a b : float) :
  stdin w = line1 :: line2 :: choice :: rest ->
  float_of_str line1 = Some a ->
  float_of_str line2 = Some b ->
  ((a <? 0) || (b <? 0))%float = false ->
  let w' := emit (tick (reads w rest)) (answered_events a b) in
  (lower choice <> "y" ->
     iteration w = Ok Break w'
     /\ forall fuel done,
          (while_true (S fuel) iteration done;; print "Goodbye!") w
          = Ok tt (emit w' [Print "Goodbye!"]))
  /\ (lower choice = "y" ->
     iteration w = Ok Continue w'
     /\ forall fuel done,
          while_true (S fuel) iteration done w
          = while_true fuel iteration (S done) w')
  /\ (lower choice = "y" <-> choice = "y" \/ choice = "Y")
  /\ (choice = EmptyString -> iteration w = Ok Break w')
  /\ (lower choice <> "y" ->
     script w
     = Ok tt (emit (tick (reads w rest))
                (Print "Simple Calculator"
                 :: answered_events a b ++ [Print "Goodbye!"])%list))
  /\ (lower choice = "y" ->
     script w
     = (while_true (List.length (stdin w)) iteration 1;; print "Goodbye!")
         (emit (tick (reads w rest))
            (Print "Simple Calculator" :: answered_events a b))).
Proof.
  intros Hin Ha Hb Hsign w'.
  pose proof (iteration_answered w line1 line2 choice rest a b
                Hin Ha Hb Hsign) as Hit.
  fold w' in Hit.
  pose proof (iteration_answered (emit w [Print "Simple Calculator"])
                line1 line2 choice rest a b Hin Ha Hb Hsign) as Hit0.
  rewrite reads_emit, tick_emit, emit_emit in Hit0.
  change ([Print "Simple Calculator"] ++ answered_events a b)%list
    with (Print "Simple Calculator" :: answered_events a b) in Hit0.
  split; [| split; [| split; [| split; [| split]]]].
  - intros Hno. apply String.eqb_neq in Hno. rewrite Hno in Hit.
    split; [exact Hit |]. intros fuel done.
    rewrite (bind_ok _ _ _ _ _ (while_true_break _ _ _ _ _ Hit)).
    reflexivity.
  - intros Hy. apply String.eqb_eq in Hy. rewrite Hy in Hit.
    split; [exact Hit |]. intros fuel done.
    exact (while_true_continue _ _ _ _ _ Hit).
  - apply lower_is_y.
  - intros ->. exact Hit.
  - intros Hno. apply String.eqb_neq in Hno. rewrite Hno in Hit0.
    unfold script, main, main_loop.
    rewrite (bind_ok _ _ _ _ _ (print_spec _ _)).
    rewrite (bind_ok _ _ _ _ _ (while_true_break _ _ _ _ _ Hit0)).
    rewrite print_spec, emit_emit. reflexivity.
  - intros Hy. apply String.eqb_eq in Hy. rewrite Hy in Hit0.
    unfold script, main, main_loop.
    rewrite (bind_ok _ _ _ _ _ (print_spec _ _)).
    unfold bind at 1.
    rewrite (while_true_continue _ _ _ _ _ Hit0). reflexivity.
Qed.

(** C5: on the input lines 3, 4 and n the calculator writes its banner,
    the two prompts, "Result: 7.0", the prompt "Continue? (y/n): " and
    then "Goodbye!"; it ends normally with all the input read, after one
    pass through the loop and one call of [add]. *)
Theorem calculator_3_4_n :
  script (run_on ["3"; "4"; "n"])
  = Ok tt {| stdin := [];
             stdout := [Print "Simple Calculator";
                        Prompt "Enter first number: ";
                        Prompt "Enter second number: ";
                        Print "Result: 7.0";
                        Prompt "Continue? (y/n): ";
                        Print "Goodbye!"];
             adds := 1 |}
  /\ (forall fuel,
        main_loop (S fuel)
          (emit (run_on ["3"; "4"; "n"]) [Print "Simple Calculator"])
        = Ok 1%nat
            {| stdin := [];
               stdout := [Print "Simple Calculator";
                          Prompt "Enter first number: ";
                          Prompt "Enter second number: ";
                          Print "Result: 7.0";
                          Prompt "Continue? (y/n): "];
               adds := 1 |})
  /\ float_of_str "3" = Some 3%float
  /\ float_of_str "4" = Some 4%float
  /\ add 3 4 (run_on []) = Ok 7%float (tick (run_on []))
  /\ str 7%float = "7.0".
Proof.
  assert (Hpass : iteration
                    (emit (run_on ["3"; "4"; "n"]) [Print "Simple Calculator"])
                  = Ok Break
                      {| stdin := [];
                         stdout := [Print "Simple Calculator";
                                    Prompt "Enter first number: ";
                                    Prompt "Enter second number: ";
                                    Print "Result: 7.0";
                                    Prompt "Continue? (y/n): "];
                         adds := 1 |}).
  { rewrite iteration_unfold. reflexivity. }
  split; [| split].
  - unfold script, main, main_loop.
    rewrite (bind_ok _ _ _ _ _ (print_spec _ _)).
    rewrite (bind_ok _ _ _ _ _ (while_true_break _ _ _ _ _ Hpass)).
    reflexivity.
  - intros fuel. exact (while_true_break _ _ _ _ _ Hpass).
  - repeat apply conj; reflexivity.
Qed.

(** A pass on a pair of numbers of which one is negative. *)
Lemma iteration_rejected
  (w : world) (line1 line2 : string) (rest : list string) (a b : float) :
  stdin w = line1 :: line2 :: rest ->
  float_of_str line1 = Some a ->
  float_of_str line2 = Some b ->
  ((a <? 0) || (b <? 0))%float = true ->
  iteration w = Ok Continue (emit (reads w rest) rejected_events).
Proof.
  intros Hin Ha Hb Hsign. now rewrite iteration_unfold, Hin, Ha, Hb, Hsign.
Qed.

(** Where a pass on a pair of numbers of which none is negative ends,
    whether an answer follows or the input ends. *)
Lemma iteration_accepted
  (w : world) (line1 line2 : string) (rest : list string) (a b : float) :
  stdin w = line1 :: line2 :: rest ->
  float_of_str line1 = Some a ->
  float_of_str line2 = Some b ->
  ((a <? 0) || (b <? 0))%float = false ->
  final (iteration w) = emit (tick (reads w (tl rest))) (answered_events a b).
Proof.
  intros Hin Ha Hb Hsign. rewrite iteration_unfold, Hin, Ha, Hb, Hsign.
  now destruct rest.
Qed.

Lemma rejects_inv (line1 line2 : string) :
  rejects line1 line2 = true ->
  exists a b,
    float_of_str line1 = Some a /\ float_of_str line2 = Some b
    /\ ((a <? 0) || (b <? 0))%float = true.
Proof.
  unfold rejects.
  destruct (float_of_str line1) as [a |]; [| discriminate].
  destruct (float_of_str line2) as [b |]; [| discriminate].
  intros H. now exists a, b.
Qed.

(** However many pairs are refused in a row, the loop asks again. *)
Lemma rejected_run (pairs : list (string * string)) :
  Forall (fun p => rejects (fst p) (snd p) = true) pairs ->
  forall (w : world) (rest : list string) (fuel done : nat),
    stdin w = (lines_of pairs ++ rest)%list ->
    while_true (List.length pairs + fuel) iteration done w
    = while_true fuel iteration (List.length pairs + done)
        (emit (reads w rest) (rejections pairs)).
Proof.
  induction 1 as [| [line1 line2] pairs Hrej _ IH];
    intros w rest fuel done Hin.
  - cbn in Hin |- *. rewrite emit_nil, <- Hin, reads_stdin. reflexivity.
  - cbn [fst snd] in Hrej.
    destruct (rejects_inv _ _ Hrej) as (a & b & Ha & Hb & Hsign).
    change (stdin w = line1 :: line2 :: (lines_of pairs ++ rest)%list) in Hin.
    cbn [List.length Nat.add].
    rewrite (while_true_continue _ _ _ _ _
               (iteration_rejected w line1 line2 _ a b Hin Ha Hb Hsign)).
    rewrite (IH (emit (reads w (lines_of pairs ++ rest)%list) rejected_events)
               rest fuel (S done) eq_refl).
    rewrite reads_emit, emit_emit, Nat.add_succ_r. reflexivity.
Qed.

(** After any number of refused pairs the script still computes. *)
Lemma script_after_rejections (pairs : list (string * string)) :
  Forall (fun p => rejects (fst p) (snd p) = true) pairs ->
  script (run_on (lines_of pairs ++ ["3"; "4"; "n"])%list)
  = Ok tt {| stdin := [];
             stdout := ([Print "Simple Calculator"]
                        ++ rejections pairs
                        ++ [Prompt "Enter first number: ";
                            Prompt "Enter second number: ";
                            Print "Result: 7.0";
                            Prompt "Continue? (y/n): ";
                            Print "Goodbye!"])%list;
             adds := 1 |}.
Proof.
  intros Hrej.
  set (lines := (lines_of pairs ++ ["3"; "4"; "n"])%list).
  rewrite <- (main_is_script (List.length pairs + S (List.length lines)))
    by (simpl; lia).
  unfold main, main_loop.
  rewrite (bind_ok _ _ _ _ _ (print_spec _ _)).
  unfold bind.
  rewrite (rejected_run pairs Hrej
             (emit (run_on lines) [Print (str "Simple Calculator")])
             ["3"; "4"; "n"] _ _ eq_refl).
  match goal with
  | |- context [while_true _ _ _ ?w1] =>
      assert (Hit : iteration w1
                    = Ok Break (emit (tick (reads w1 [])) (answered_events 3 4)))
        by (exact (iteration_answered w1 "3" "4" "n" [] 3 4
                     eq_refl eq_refl eq_refl eq_refl))
  end.
  rewrite (while_true_break _ _ _ _ _ Hit).
  rewrite print_spec. f_equal.
  unfold emit, tick, reads, run_on; cbn [stdin stdout adds]. f_equal.
  cbn [app]. rewrite <- !app_assoc. reflexivity.
Qed.

(** C3: on a pass that reads the numbers [a] and [b], the pair is refused
    if and only if [a < 0] or [b < 0].  A refused pair makes the pass
    print "Negative numbers not allowed" and go back to the first prompt:
    [add] is not called, no "Result:" line is printed, and after any
    number of refused pairs the loop still asks again.  A pair that is
    not refused is added and "Result: " with the sum is printed. *)
Theorem negative_pair_rejected
  (w : world) (line1 line2 : string) (rest : list string) (a b : float) :
  stdin w = line1 :: line2 :: rest ->
  float_of_str line1 = Some a ->
  float_of_str line2 = Some b ->
  let r := iteration w in
  let negative := (a <? 0)%float = true \/ (b <? 0)%float = true in
  (In (Print "Negative numbers not allowed") (written w (final r))
   <-> negative)
  /\ (negative ->
      r = Ok Continue (emit (reads w rest) rejected_events)
      /\ adds (final r) = adds w
      /\ (forall text, ~ In (Print ("Result: " ++ text)) (written w (final r)))
      /\ forall fuel done,
           while_true (S fuel) iteration done w
           = while_true fuel iteration (S done)
               (emit (reads w rest) rejected_events))
  /\ (~ negative ->
      adds (final r) = S (adds w)
      /\ written w (final r)
         = [Prompt "Enter first number: "; Prompt "Enter second number: ";
            Print ("Result: " ++ str (a + b)%float);
            Prompt "Continue? (y/n): "])
  /\ (forall pairs,
        Forall (fun p => rejects (fst p) (snd p) = true) pairs ->
        script (run_on (lines_of pairs ++ ["3"; "4"; "n"])%list)
        = Ok tt {| stdin := [];
                   stdout := ([Print "Simple Calculator"]
                              ++ rejections pairs
                              ++ [Prompt "Enter first number: ";
                                  Prompt "Enter second number: ";
                                  Print "Result: 7.0";
                                  Prompt "Continue? (y/n): ";
                                  Print "Goodbye!"])%list;
                   adds := 1 |}).
Proof.
  intros Hin Ha Hb r negative. subst r negative.
  destruct ((a <? 0)%float || (b <? 0)%float) eqn:Hsign.
  - (* refused *)
    pose proof (iteration_rejected w _ _ _ a b Hin Ha Hb Hsign) as Hit.
    rewrite Hit. cbn [final]. rewrite written_emit.
    apply orb_true_iff in Hsign.
    split; [| split; [| split]].
    + split; [intros _; exact Hsign | intros _; simpl; tauto].
    + intros _. split; [reflexivity |]. split; [reflexivity |].
      split.
      * intros text H. simpl in H.
        repeat (destruct H as [H | H]; [discriminate H |]). exact H.
      * intros fuel done. exact (while_true_continue _ _ _ _ _ Hit).
    + intros Hno. contradiction.
    + exact script_after_rejections.
  - (* added *)
    pose proof (iteration_accepted w _ _ _ a b Hin Ha Hb Hsign) as Hit.
    rewrite Hit.
    rewrite (written_after w (tick (reads w (tl rest))) _ eq_refl).
    apply orb_false_iff in Hsign. destruct Hsign as [Hna Hnb].
    split; [| split; [| split]].
    + split; [| intros [H | H]; congruence].
      simpl. intros H.
      repeat (destruct H as [H | H]; [discriminate H |]). contradiction.
    + intros [H | H]; congruence.
    + intros _. split; reflexivity.
    + exact script_after_rejections.
Qed.

End CalculatorFacts.

(* ===================================================================== *)
(** * Failures of the three scripts *)
(* ===================================================================== *)

Section FailureFacts.
Context {B : Builtins}.

(** A failure after [w1] is a failure after an earlier world [w]. *)
Lemma failed_at_read_later {A} (refused : string -> Prop) (w w1 : world)
  (before : list string) (es : list event) (r : result A) :
  stdin w = (before ++ stdin w1)%list ->
  stdout w1 = (stdout w ++ es)%list ->
  failed_at_read refused w1 r ->
  failed_at_read refused w r.
Proof.
  intros Hin Hout. destruct r as [a w' | [] w' | w']; cbn; auto.
  - intros (before' & line & es' & p & Hin' & Href & Hout').
    exists (before ++ before')%list, line, (es ++ es')%list, p.
    rewrite Hin, Hin', Hout', Hout, <- !app_assoc. auto.
  - intros (es' & p & Hin' & Hout').
    exists (es ++ es')%list, p.
    rewrite Hout', Hout, <- !app_assoc. auto.
Qed.

(** A pass that ends normally has read a part of the input and has
    written after what was there. *)
Lemma iteration_extends (w w1 : world) (c : Calculator.ctl) :
  Calculator.iteration w = Ok c w1 ->
  exists before es,
    stdin w = (before ++ stdin w1)%list /\ stdout w1 = (stdout w ++ es)%list.
Proof.
  rewrite iteration_unfold.
  destruct (stdin w) as [| line1 rest1]; [discriminate |].
  destruct (float_of_str line1); [| discriminate].
  destruct rest1 as [| line2 rest2]; [discriminate |].
  destruct (float_of_str line2); [| discriminate].
  destruct (_ || _).
  - intros [= _ <-]. exists [line1; line2]. eexists. split; reflexivity.
  - destruct rest2 as [| choice rest3]; [discriminate |].
    intros [= _ <-]. exists [line1; line2; choice]. eexists.
    split; reflexivity.
Qed.

(** A pass fails only at one of its reads. *)
Lemma iteration_failed_at_read (w : world) :
  failed_at_read float_refused w (Calculator.iteration w).
Proof.
  rewrite iteration_unfold.
  destruct (stdin w) as [| line1 rest1] eqn:Hin.
  { cbn. exists [], "Enter first number: ". now rewrite Hin. }
  destruct (float_of_str line1) eqn:H1.
  2:{ cbn. exists [], line1, [], "Enter first number: ". now rewrite Hin. }
  destruct rest1 as [| line2 rest2].
  { cbn. exists [Prompt "Enter first number: "], "Enter second number: ".
    auto. }
  destruct (float_of_str line2) eqn:H2.
  2:{ cbn. exists [line1], line2, [Prompt "Enter first number: "],
        "Enter second number: ". now rewrite Hin. }
  destruct (_ || _); [exact I |].
  destruct rest2 as [| choice rest3]; [| exact I].
  cbn. eexists [_; _; _], "Continue? (y/n): ". split; reflexivity.
Qed.

(** The loop fails only at a read of one of its passes. *)
Lemma while_true_failed_at_read (fuel : nat) :
  forall (done : nat) (w : world),
    failed_at_read float_refused w
      (Calculator.while_true fuel Calculator.iteration done w).
Proof.
  induction fuel as [| fuel IH]; intros done w; [exact I |].
  destruct (Calculator.iteration w) as [[] w1 | e w1 | w1] eqn:E.
  - rewrite (while_true_continue _ _ _ _ _ E).
    destruct (iteration_extends _ _ _ E) as (before & es & Hin & Hout).
    exact (failed_at_read_later _ _ _ _ _ _ Hin Hout (IH (S done) w1)).
  - rewrite (while_true_break _ _ _ _ _ E). exact I.
  - rewrite (while_true_raise _ _ _ _ _ _ E).
    pose proof (iteration_failed_at_read w) as H. rewrite E in H. exact H.
  - now apply iteration_fuel in E.
Qed.

(** An exception in [main] is that of its loop. *)
Lemma main_raises (fuel : nat) (w w' : world) (e : exn) :
  Calculator.main fuel w = Raise e w' ->
  Calculator.main_loop fuel (emit w [Print "Simple Calculator"]) = Raise e w'.
Proof.
  unfold Calculator.main, bind. rewrite print_spec.
  destruct (Calculator.main_loop fuel _) as [n w1 | e1 w1 | w1];
    [rewrite print_spec; discriminate | now intros [= -> ->] | discriminate].
Qed.

Lemma calculator_failed_at_read (w : world) :
  failed_at_read float_refused w (Calculator.script w).
Proof.
  destruct (Calculator.script w) as [a w' | e w' | w'] eqn:E;
    [exact I | | exact I].
  apply main_raises in E. unfold Calculator.main_loop in E.
  pose proof (while_true_failed_at_read (S (List.length (stdin w))) 0
                (emit w [Print "Simple Calculator"])) as H.
  rewrite E in H.
  exact (failed_at_read_later float_refused w
           (emit w [Print "Simple Calculator"]) []
           [Print "Simple Calculator"] (Raise e w') eq_refl eq_refl H).
Qed.

Lemma calculator_ends (w w' : world) : Calculator.script w <> OutOfFuel w'.
Proof.
  unfold Calculator.script, Calculator.main, Calculator.main_loop, bind.
  rewrite print_spec.
  destruct (Calculator.while_true _ _ _ _) as [n w1 | e w1 | w1] eqn:E;
    [rewrite print_spec; discriminate | discriminate |].
  exfalso. revert E. apply main_loop_fuel. simpl. lia.
Qed.

Lemma simple_failed_at_read (w : world) :
  failed_at_read int_refused w (Simple.script w)
  /\ forall w', Simple.script w <> OutOfFuel w'.
Proof.
  destruct (stdin w) as [| line rest] eqn:Hin.
  - rewrite (script_eof w Hin). split; [| discriminate].
    cbn. eexists [_; _], "Enter your age: ". now rewrite Hin.
  - destruct (int_of_str line) as [i |] eqn:Hi.
    + rewrite (script_spec w line rest i Hin Hi). split; [exact I | discriminate].
    + rewrite (script_bad_line w line rest Hin Hi). split; [| discriminate].
      cbn. eexists [], line, [_; _], "Enter your age: ". now rewrite Hin.
Qed.

(** The calculator on a first or a second number that [float] refuses:
    the script ends at that read. *)
Lemma calculator_bad_first (w : world) (line : string) (rest : list string) :
  stdin w = line :: rest ->
  float_of_str line = None ->
  Calculator.script w
  = Raise ValueError
      (emit (reads w rest)
         [Print "Simple Calculator"; Prompt "Enter first number: "]).
Proof.
  intros Hin Hline.
  assert (Hit : Calculator.iteration (emit w [Print "Simple Calculator"])
                = Raise ValueError
                    (emit (reads w rest)
                       [Print "Simple Calculator";
                        Prompt "Enter first number: "])).
  { rewrite iteration_unfold. cbn [stdin emit]. rewrite Hin, Hline.
    fold (emit w [Print "Simple Calculator"]).
    now rewrite reads_emit, emit_emit. }
  unfold Calculator.script, Calculator.main, Calculator.main_loop.
  rewrite (bind_ok _ _ _ _ _ (print_spec _ _)).
  now rewrite (bind_raise _ _ _ _ _ (while_true_raise _ _ _ _ _ _ Hit)).
Qed.

Lemma calculator_bad_second
  (w : world) (line1 line2 : string) (rest : list string) (a : float) :
  stdin w = line1 :: line2 :: rest ->
  float_of_str line1 = Some a ->
  float_of_str line2 = None ->
  Calculator.script w
  = Raise ValueError
      (emit (reads w rest)
         [Print "Simple Calculator"; Prompt "Enter first number: ";
          Prompt "Enter second number: "]).
Proof.
  intros Hin H1 H2.
  assert (Hit : Calculator.iteration (emit w [Print "Simple Calculator"])
                = Raise ValueError
                    (emit (reads w rest)
                       [Print "Simple Calculator";
                        Prompt "Enter first number: ";
                        Prompt "Enter second number: "])).
  { rewrite iteration_unfold. cbn [stdin emit]. rewrite Hin, H1, H2.
    fold (emit w [Print "Simple Calculator"]).
    now rewrite reads_emit, emit_emit. }
  unfold Calculator.script, Calculator.main, Calculator.main_loop.
  rewrite (bind_ok _ _ _ _ _ (print_spec _ _)).
  now rewrite (bind_raise _ _ _ _ _ (while_true_raise _ _ _ _ _ _ Hit)).
Qed.

(** C4 (as the code has it): the scripts fail at their console reads
    only, and a read fails in one of two ways: the line does not parse
    as the number asked for (the integer of the age check, the two floats
    of the calculator), or the input has ended.  [test_if_else.py] reads
    nothing and never fails.  An error of either kind is not handled: the
    script ends at the failed read, the prompt of that read being the
    last thing written, the lines after the refused one left unread and
    nothing printed after. *)
Theorem failures_are_console_reads :
  (forall w, exists w', IfElse.script w = Ok tt w')
  /\ (forall w,
        failed_at_read int_refused w (Simple.script w)
        /\ forall w', Simple.script w <> OutOfFuel w')
  /\ (forall w,
        failed_at_read float_refused w (Calculator.script w)
        /\ forall w', Calculator.script w <> OutOfFuel w')
  /\ (forall w line rest,
        stdin w = line :: rest ->
        int_of_str line = None ->
        Simple.script w
        = Raise ValueError
            (emit (reads w rest)
               [Print "The sum is: 15"; Print "Rectangle area: 48";
                Prompt "Enter your age: "]))
  /\ (forall w line rest,
        stdin w = line :: rest ->
        float_of_str line = None ->
        Calculator.script w
        = Raise ValueError
            (emit (reads w rest)
               [Print "Simple Calculator"; Prompt "Enter first number: "]))
  /\ (forall w line1 line2 rest a,
        stdin w = line1 :: line2 :: rest ->
        float_of_str line1 = Some a ->
        float_of_str line2 = None ->
        Calculator.script w
        = Raise ValueError
            (emit (reads w rest)
               [Print "Simple Calculator"; Prompt "Enter first number: ";
                Prompt "Enter second number: "]))
  /\ (forall w e w' fuel done,
        Calculator.iteration w = Raise e w' ->
        (Calculator.while_true (S fuel) Calculator.iteration done;;
         print "Goodbye!") w
        = Raise e w')
  /\ (forall w,
        stdin w = [] ->
        Simple.script w
        = Raise EOFError
            (emit w [Print "The sum is: 15"; Print "Rectangle area: 48";
                     Prompt "Enter your age: "])).
Proof.
  split; [| split; [| split; [| split; [| split; [| split; [| split]]]]]].
  - intros w. eexists. apply ifelse_script_spec.
  - apply simple_failed_at_read.
  - intros w. split;
      [apply calculator_failed_at_read | intros w'; apply calculator_ends].
  - apply script_bad_line.
  - apply calculator_bad_first.
  - apply calculator_bad_second.
  - intros w e w' fuel done E.
    now rewrite (bind_raise _ _ _ _ _ (while_true_raise _ _ _ _ _ _ E)).
  - apply script_eof.
Qed.

End FailureFacts.

(* ===================================================================== *)
(** * Runs on concrete inputs *)
(* ===================================================================== *)

(** C1, against the sentence as stated ("any other input, including the
    empty string, causes another iteration"): after the pair 3, 4 the
    empty answer ends the loop.  The pass ends with [break], not with
    another pass, and the script says "Goodbye!" with the lines 5, 6, n
    unread. *)
Lemma empty_answer_ends_loop :
  let w := run_on ["3"; "4"; EmptyString; "5"; "6"; "n"] in
  value (@Calculator.iteration plain_only w) = Some Calculator.Break
  /\ value (@Calculator.iteration plain_only w) <> Some Calculator.Continue
  /\ @Calculator.script plain_only w
     = Ok tt {| stdin := ["5"; "6"; "n"];
                stdout := [Print "Simple Calculator";
                           Prompt "Enter first number: ";
                           Prompt "Enter second number: ";
                           Print "Result: 7.0";
                           Prompt "Continue? (y/n): ";
                           Print "Goodbye!"];
                adds := 1 |}.
Proof.
  cbv zeta. split; [reflexivity |]. split; [discriminate | reflexivity].
Qed.

(** C4, against the sentence as stated ("the only failure path is a parse
    failure"): on an input that has ended, the calculator and the age
    check fail with [EOFError], no line having been refused. *)
Lemma end_of_input_fails :
  raised (@Calculator.script plain_only (run_on [])) = Some EOFError
  /\ raised (@Simple.script plain_only (run_on [])) = Some EOFError
  /\ raised (@Calculator.script plain_only (run_on ["3"; "4"]))
     = Some EOFError
  /\ ~ only_parse_failures (@Calculator.script plain_only)
  /\ ~ only_parse_failures (@Simple.script plain_only).
Proof.
  repeat apply conj; try reflexivity.
  - intros H. specialize (H (run_on []) EOFError _ eq_refl). discriminate H.
  - intros H. specialize (H (run_on []) EOFError _ eq_refl). discriminate H.
Qed.

(** C1 at the answers "Y" and "n" after the pair 3, 4. *)
Lemma continue_prompt_exits_witness :
  @Calculator.iteration plain_only (run_on ["3"; "4"; "Y"; "n"])
  = Ok Calculator.Continue
      (emit (tick (reads (run_on ["3"; "4"; "Y"; "n"]) ["n"]))
         (@Calculator.answered_events plain_only 3 4)).
Proof.
  destruct (@continue_prompt_exits plain_only
              (run_on ["3"; "4"; "Y"; "n"]) "3" "4" "Y" ["n"] 3%float 4%float
              eq_refl eq_refl eq_refl eq_refl) as (_ & H & _).
  exact (proj1 (H eq_refl)).
Defined.

(** C3 at the pair -1, 2. *)
Lemma negative_pair_rejected_witness :
  @Calculator.iteration plain_only (run_on ["-1"; "2"; "n"])
  = Ok Calculator.Continue
      (emit (reads (run_on ["-1"; "2"; "n"]) ["n"])
         Calculator.rejected_events).
Proof.
  destruct (@negative_pair_rejected plain_only
              (run_on ["-1"; "2"; "n"]) "-1" "2" ["n"] (-1)%float 2%float
              eq_refl eq_refl eq_refl) as (_ & H & _).
  exact (proj1 (H (or_introl eq_refl))).
Defined.

(** C6 at the ages 18 and 17. *)
Lemma age_check_adult_iff_witness :
  In (Print "You are an adult")
     (stdout (final (@Simple.script plain_only (run_on ["18"]))))
  /\ In (Print "You are a minor")
       (stdout (final (@Simple.script plain_only (run_on ["17"])))).
Proof.
  split.
  - destruct (@age_check_adult_iff plain_only "18" [] 18 eq_refl)
      as (_ & H & _).
    apply H. lia.
  - destruct (@age_check_adult_iff plain_only "17" [] 17 eq_refl)
      as (_ & _ & H).
    apply H. lia.
Defined.


(** C4 on lines that are not numbers: the age "abc", and the calculator
    on a first number "abc" and on a second number "x". *)
Lemma failures_are_console_reads_witness :
  @Simple.script plain_only (run_on ["abc"; "18"])
  = Raise ValueError
      {| stdin := ["18"];
         stdout := [Print "The sum is: 15"; Print "Rectangle area: 48";
                    Prompt "Enter your age: "];
         adds := 0 |}
  /\ @Calculator.script plain_only (run_on ["abc"; "4"; "n"])
     = Raise ValueError
         {| stdin := ["4"; "n"];
            stdout := [Print "Simple Calculator";
                       Prompt "Enter first number: "];
            adds := 0 |}
  /\ @Calculator.script plain_only (run_on ["3"; "x"; "n"])
     = Raise ValueError
         {| stdin := ["n"];
            stdout := [Print "Simple Calculator";
                       Prompt "Enter first number: ";
                       Prompt "Enter second number: "];
            adds := 0 |}.
Proof.
  destruct (@failures_are_console_reads plain_only)
    as (_ & _ & _ & Hage & Hfirst & Hsecond & _).
  split; [| split].
  - exact (Hage (run_on ["abc"; "18"]) "abc" ["18"] eq_refl eq_refl).
  - exact (Hfirst (run_on ["abc"; "4"; "n"]) "abc" ["4"; "n"] eq_refl eq_refl).
  - exact (Hsecond (run_on ["3"; "x"; "n"]) "3" "x" ["n"] 3%float
             eq_refl eq_refl eq_refl).
Defined.

(** C8 in the whole script, run on the age 18. *)
Lemma while_counter_prints_witness :
  exists before,
    @Simple.script plain_only (run_on ["18"])
    = Ok tt {| stdin := [];
               stdout := (before ++ [Print "Count: 0"; Print "Count: 1";
                                     Print "Count: 2"; Print "Done!"])%list;
               adds := 0 |}
    /\ ~ In (Print "Count: 3") before.
Proof.
  destruct (@while_counter_prints plain_only (run_on []))
    as (_ & _ & _ & _ & H).
  exact (H "18" [] 18 eq_refl).
Defined.

(* ===================================================================== *)
(** * Further properties: test_if_else.py *)
(* ===================================================================== *)

Section IfElseMore.
Import IfElse.

(** X1: [test_if_else] never lowers its argument and keeps the order of
    its arguments: the result is at least [x], a larger argument never
    gives a smaller result, and below a positive argument the result is
    strictly smaller, so that no two positive arguments share a result. *)
Theorem test_if_else_monotone (x y : Z) (w : world) :
  x <= y ->
  exists rx ry,
    value (test_if_else x w) = Some rx
    /\ value (test_if_else y w) = Some ry
    /\ rx <= ry
    /\ (x < y -> 0 < y -> rx < ry)
    /\ x <= rx.
Proof.
  intros Hxy.
  destruct (in_band_total x) as [bx Hx], (in_band_total y) as [b_y Hy].
  exists (band_value bx x), (band_value b_y y).
  rewrite (test_if_else_in_band x w bx Hx), (test_if_else_in_band y w b_y Hy).
  cbn [value].
  destruct bx, b_y; cbn [in_band band_value] in *;
    repeat apply conj; try reflexivity; intros; lia.
Qed.

(** X2: the values [test_if_else] returns are 0, the integers from 2 to
    6, those from 11 to 15 and the even integers from 22 on, and each of
    them is returned for some argument: it never returns 1, a value from
    7 to 10 or from 16 to 21, or an odd value above 22. *)
Theorem test_if_else_image (r : Z) :
  (exists x w, value (test_if_else x w) = Some r)
  <-> r = 0 \/ 2 <= r <= 6 \/ 11 <= r <= 15 \/ (22 <= r /\ r mod 2 = 0).
Proof.
  split.
  - intros (x & w & Hr).
    destruct (in_band_total x) as [b Hb].
    rewrite (test_if_else_in_band x w b Hb) in Hr. cbn [value] in Hr.
    injection Hr as <-.
    destruct b; cbn [in_band band_value] in *.
    + right; right; right. split; [lia |].
      rewrite Z.mul_comm. apply Z.mod_mul. discriminate.
    + right; right; left. lia.
    + right; left. lia.
    + left. reflexivity.
  - intros [-> | [H | [H | [H Heven]]]].
    + exists 0, (run_on []). reflexivity.
    + exists (r - 1), (run_on []).
      rewrite (test_if_else_in_band (r - 1) _ Small) by (cbn; lia).
      cbn [value band_value]. f_equal. lia.
    + exists (r - 5), (run_on []).
      rewrite (test_if_else_in_band (r - 5) _ Medium) by (cbn; lia).
      cbn [value band_value]. f_equal. lia.
    + exists (r / 2), (run_on []).
      pose proof (Z.div_mod r 2 ltac:(discriminate)) as Hdiv.
      rewrite (test_if_else_in_band (r / 2) _ Large) by (cbn; lia).
      cbn [value band_value]. f_equal. lia.
Qed.

(** The remainder that [simple_if_else] tests. *)
Lemma mod_2_cases (n : Z) :
  (n mod 2 = 0 /\ exists k, n = 2 * k)
  \/ (n mod 2 = 1 /\ exists k, n = 2 * k + 1).
Proof.
  pose proof (Z.div_mod n 2 ltac:(discriminate)) as Hdiv.
  pose proof (Z.mod_pos_bound n 2 ltac:(lia)) as Hbound.
  destruct (Z.eq_dec (n mod 2) 0) as [H0 | H0].
  - left. split; [exact H0 |]. exists (n / 2). lia.
  - right. split; [lia |]. exists (n / 2). lia.
Qed.

Lemma mod_2_even (k : Z) : (2 * k) mod 2 = 0.
Proof. rewrite Z.mul_comm. apply Z.mod_mul. discriminate. Qed.

Lemma mod_2_odd (k : Z) : (2 * k + 1) mod 2 = 1.
Proof.
  rewrite Z.add_comm, Z.mul_comm, Z.mod_add by discriminate. reflexivity.
Qed.

(** X3: [simple_if_else n] writes "Even" exactly when [n] is twice an
    integer and "Odd" exactly when it is one more than that, for negative
    [n] as well ([%] takes the sign of 2); so [n] and [-n], and [n] and
    [n + 2], give the same line, and [n] and [n + 1] different ones. *)
Theorem simple_if_else_parity (n : Z) (w : world) :
  (simple_if_else n w = Ok tt (emit w [Print "Even"]) <-> exists k, n = 2 * k)
  /\ (simple_if_else n w = Ok tt (emit w [Print "Odd"])
      <-> exists k, n = 2 * k + 1)
  /\ simple_if_else (- n) w = simple_if_else n w
  /\ simple_if_else (n + 2) w = simple_if_else n w
  /\ simple_if_else (n + 1) w <> simple_if_else n w.
Proof.
  assert (Hne : forall s t : string, s <> t ->
                  Ok tt (emit w [Print s]) <> Ok tt (emit w [Print t])).
  { intros s t Hst H. injection H as H. apply app_inv_head in H.
    injection H as H. contradiction. }
  rewrite !simple_if_else_spec.
  destruct (mod_2_cases n) as [[Hn [k ->]] | [Hn [k ->]]].
  - rewrite mod_2_even. cbn [Z.eqb].
    replace (- (2 * k)) with (2 * (- k)) by lia.
    replace (2 * k + 2) with (2 * (k + 1)) by lia.
    rewrite !mod_2_even, mod_2_odd. cbn [Z.eqb Pos.eqb].
    split; [| split; [| split; [| split]]]; try reflexivity.
    + split; [intros _; now exists k | reflexivity].
    + split; [intros H; now apply Hne in H | intros [j Hj]; lia].
    + now apply Hne.
  - rewrite mod_2_odd. cbn [Z.eqb Pos.eqb].
    replace (- (2 * k + 1)) with (2 * (- k - 1) + 1) by lia.
    replace (2 * k + 1 + 2) with (2 * (k + 1) + 1) by lia.
    replace (2 * k + 1 + 1) with (2 * (k + 1)) by lia.
    rewrite !mod_2_odd, mod_2_even. cbn [Z.eqb Pos.eqb].
    split; [| split; [| split; [| split]]]; try reflexivity.
    + split; [intros H; now apply Hne in H | intros [j Hj]; lia].
    + split; [intros _; now exists k | reflexivity].
    + now apply Hne.
Qed.

End IfElseMore.

(** X1 at the arguments 5 and 6, on the two sides of a band. *)
Lemma test_if_else_monotone_witness :
  exists rx ry,
    value (IfElse.test_if_else 5 (run_on [])) = Some rx
    /\ value (IfElse.test_if_else 6 (run_on [])) = Some ry
    /\ rx <= ry
    /\ (5 < 6 -> 0 < 6 -> rx < ry)
    /\ 5 <= rx.
Proof. apply (test_if_else_monotone 5 6 (run_on [])). lia. Defined.

(* ===================================================================== *)
(** * Further properties: examples/simple.py *)
(* ===================================================================== *)

Section SimpleMore.
Import Simple.
Context {B : Builtins}.

(** [range(a, b)] is empty when [b <= a], and starts with [a] otherwise. *)
Lemma range_nil (a b : Z) : b <= a -> range a b = [].
Proof.
  intros H. unfold range. replace (Z.to_nat (b - a)) with 0%nat by lia.
  reflexivity.
Qed.

Lemma range_cons (a b : Z) : a < b -> range a b = a :: range (a + 1) b.
Proof.
  intros H. unfold range.
  replace (Z.to_nat (b - a)) with (S (Z.to_nat (b - (a + 1)))) by lia.
  cbn [seq map]. f_equal; [lia |].
  rewrite <- seq_shift, map_map. apply map_ext. intros i. lia.
Qed.

Lemma range_length (a b : Z) : List.length (range a b) = Z.to_nat (b - a).
Proof. unfold range. now rewrite length_map, length_seq. Qed.

Lemma range_In (a b i : Z) : In i (range a b) <-> a <= i < b.
Proof.
  unfold range. rewrite in_map_iff. split.
  - intros (k & <- & Hk). apply in_seq in Hk. lia.
  - intros Hi. exists (Z.to_nat (i - a)). split; [lia |].
    apply in_seq. lia.
Qed.

(** 3 is below the bound on what [str] converts. *)
Lemma str_limit_above_3 : 3 < str_limit.
Proof. unfold str_limit. vm_compute. reflexivity. Qed.

(** X4: the while loop, entered with a value of [count] above the
    negative bound on what [str] converts, prints "Count: i" for the
    integers [i] from [count] up to 2, in increasing order and once each,
    every one of them an integer that [str] converts, and ends with
    [count] equal to 3, or to its value on entry when that is 3 or more;
    then nothing is printed.  It reads no input and does not fail. *)
Theorem count_loop_counts (count : Z) (w : world) :
  - str_limit < count ->
  count_loop count w
  = Ok (Z.max count 3)
       (emit w (map (fun i => Print ("Count: " ++ str i)) (range count 3)))
  /\ (forall i, In i (range count 3) -> printable i)
  /\ List.length (range count 3) = Z.to_nat (3 - count)
  /\ (forall i, In i (range count 3) <-> count <= i < 3)
  /\ (3 <= count -> count_loop count w = Ok count w).
Proof.
  intros Hbound.
  split; [| split; [| split; [apply range_length
                             | split; [intros i; apply range_In |]]]].
  2:{ intros i Hi. apply range_In in Hi. unfold printable.
      pose proof str_limit_above_3. lia. }
  clear Hbound.
  - remember (passes_left count) as n eqn:Hn. revert count w Hn.
    induction n as [| n IH]; intros count w Hn; unfold passes_left in Hn.
    + rewrite count_loop_exit, range_nil by lia. cbn [map].
      rewrite emit_nil. f_equal. lia.
    + rewrite count_loop_pass, range_cons by lia.
      rewrite IH by (unfold passes_left; lia).
      cbn [map]. rewrite emit_emit. f_equal. lia.
  - apply count_loop_exit.
Qed.

(** X6: the summing loop, over any list of numbers and from any value of
    [total], ends with [total] increased by the sum of the list; it writes
    nothing, reads nothing and does not fail.  Running it on the two
    parts of a list, one after the other, gives the same total.  In the
    script the list is 1 to 5 and "Total sum: 15" is printed. *)
Theorem sum_loop_total (numbers more : list Z) (total : Z) (w : world) :
  for_ numbers (fun num total => ret (total + num)) total w
  = Ok (total + fold_right Z.add 0 numbers) w
  /\ for_ (numbers ++ more) (fun num total => ret (total + num)) total w
     = (t <- for_ numbers (fun num total => ret (total + num)) total;;
        for_ more (fun num total => ret (total + num)) t) w
  /\ sum_block w
     = Ok tt (emit w [Print ("Total sum: "
                             ++ str (fold_right Z.add 0 [1; 2; 3; 4; 5]))]).
Proof.
  assert (Hsum : forall (xs : list Z) (t : Z) (w0 : world),
            for_ xs (fun num total => ret (total + num)) t w0
            = Ok (t + fold_right Z.add 0 xs) w0).
  { induction xs as [| x xs IH]; intros t w0; cbn [for_ fold_right].
    - unfold ret. f_equal. lia.
    - unfold bind, ret at 1. rewrite IH. f_equal. lia. }
  split; [apply Hsum |]. split; [| reflexivity].
  rewrite (bind_ok _ _ _ _ _ (Hsum numbers total w)), !Hsum.
  f_equal. rewrite fold_right_app.
  clear. revert total. induction numbers as [| x xs IH]; intros total;
    cbn [fold_right]; [lia |].
  specialize (IH total). lia.
Qed.

(** X7: on an input whose first line [int] reads as [i], the whole script
    ends normally after reading that one line, whatever follows it, and
    writes fifteen things: the sum 15, the area 48, the prompt, the answer
    for [i], the heading and the numbers 1 to 5, the total 15, the counts
    0 to 2 and "Done!".  Two ages on the same side of 18 give the same
    output. *)
Theorem simple_script_run
  (w : world) (line : string) (rest : list string) (i : Z) :
  stdin w = line :: rest ->
  int_of_str line = Some i ->
  script w = Ok tt (emit (reads w rest) (script_output i))
  /\ stdin (final (script w)) = rest
  /\ List.length (written w (final (script w))) = 15%nat
  /\ (forall j, (18 <= j <-> 18 <= i) -> script_output j = script_output i).
Proof.
  intros Hin Hi. rewrite (script_spec w line rest i Hin Hi).
  cbn [final]. rewrite written_emit.
  repeat apply conj; try reflexivity.
  intros j Hj. unfold script_output.
  destruct (Z.geb_spec j 18), (Z.geb_spec i 18); try reflexivity; lia.
Qed.

End SimpleMore.

(** X7 on the lines 42 and "left over". *)
Lemma simple_script_run_witness :
  stdin (final (@Simple.script plain_only (run_on ["42"; "left over"])))
  = ["left over"].
Proof.
  destruct (@simple_script_run plain_only (run_on ["42"; "left over"])
              "42" ["left over"] 42 eq_refl eq_refl) as (_ & H & _).
  exact H.
Defined.

(* ===================================================================== *)
(** * Further properties: test_calculator.py *)
(* ===================================================================== *)

(** Two facts of binary64 addition, from the library's specification of
    the primitive floats ([add_spec], [ltb_spec]). *)
Section FloatFacts.
Import Session.

Lemma SFadd_comm (x y : spec_float) : SF64add x y = SF64add y x.
Proof.
  unfold SF64add.
  destruct x as [sx | sx | | sx mx ex], y as [sy | sy | | sy my ey];
    try reflexivity; try (destruct sx, sy; reflexivity).
  unfold SFadd. rewrite (Z.min_comm ey ex), Z.add_comm. reflexivity.
Qed.

Lemma float_add_comm (a b : float) : (a + b = b + a)%float.
Proof. apply Prim2SF_inj. rewrite !add_spec. apply SFadd_comm. Qed.

Lemma SFltb_zero (x : spec_float) :
  SFltb x (S754_zero false) = negb (not_below_zero x).
Proof. destruct x as [s | s | | s m e]; try destruct s; reflexivity. Qed.

(** Rounding keeps the sign. *)
Lemma binary_round_aux_sign (mx ex : Z) (lx : location) :
  not_below_zero (binary_round_aux prec emax false mx ex lx) = true.
Proof.
  unfold binary_round_aux.
  destruct (shr_fexp prec emax mx ex lx) as [mrs' e'].
  destruct (shr_fexp prec emax _ e' loc_Exact) as [mrs'' e''].
  destruct (shr_m mrs''); try reflexivity.
  now destruct (e'' <=? emax - prec).
Qed.

Lemma SFadd_not_below_zero (x y : spec_float) :
  not_below_zero x = true -> not_below_zero y = true ->
  not_below_zero (SF64add x y) = true.
Proof.
  unfold SF64add.
  destruct x as [sx | sx | | sx mx ex], y as [sy | sy | | sy my ey];
    try destruct sx; try destruct sy; try discriminate; try reflexivity.
  intros _ _. unfold SFadd. cbn [cond_Zopp].
  set (ez := Z.min ex ey).
  destruct (shl_align mx ex ez) as [m1 e1], (shl_align my ey ez) as [m2 e2].
  cbn [fst Z.add binary_normalize]. unfold binary_round.
  destruct (shl_align _ _ _) as [mz ez'].
  apply binary_round_aux_sign.
Qed.

Lemma float_add_not_below_zero (a b : float) :
  (a <? 0)%float = false -> (b <? 0)%float = false ->
  (a + b <? 0)%float = false.
Proof.
  rewrite !ltb_spec, add_spec.
  change (Prim2SF 0) with (S754_zero false).
  rewrite !SFltb_zero, !negb_false_iff. apply SFadd_not_below_zero.
Qed.

End FloatFacts.

Section CalculatorMore.
Import Calculator Session.
Context {B : Builtins}.

(** How many results and refusals the loop's two outputs hold. *)
Lemma is_result_Result (text : string) :
  is_result (Print ("Result: " ++ text)) = true.
Proof. cbn. now destruct text. Qed.

Lemma answered_events_counts (a b : float) :
  results (answered_events a b) = 1%nat
  /\ refusals (answered_events a b) = 0%nat
  /\ Forall loop_event (answered_events a b).
Proof.
  unfold results, refusals, answered_events.
  cbn [filter]. rewrite is_result_Result.
  repeat apply conj; try reflexivity.
  apply Forall_cons; [left; reflexivity |].
  apply Forall_cons; [right; left; reflexivity |].
  apply Forall_cons; [do 4 right; apply is_result_Result |].
  apply Forall_cons; [right; right; left; reflexivity |].
  apply Forall_nil.
Qed.

Lemma rejected_events_counts :
  results rejected_events = 0%nat
  /\ refusals rejected_events = 1%nat
  /\ Forall loop_event rejected_events.
Proof.
  repeat apply conj; try reflexivity.
  apply Forall_cons; [left; reflexivity |].
  apply Forall_cons; [right; left; reflexivity |].
  apply Forall_cons; [right; right; right; left; reflexivity |].
  apply Forall_nil.
Qed.

(** X8: the two numbers of a pass can be swapped: [add a b] is
    [add b a], and on two lines that [float] reads, the pass writes the
    same, ends the same way and leaves the same input, whichever of the
    two lines comes first. *)
Theorem swapped_pair_same_pass
  (w : world) (line1 line2 : string) (rest : list string) (a b : float) :
  stdin w = line1 :: line2 :: rest ->
  float_of_str line1 = Some a ->
  float_of_str line2 = Some b ->
  iteration (reads w (line2 :: line1 :: rest)) = iteration w
  /\ forall w0, add a b w0 = add b a w0.
Proof.
  intros Hin Ha Hb. split.
  - rewrite !iteration_unfold. cbn [stdin reads]. rewrite Hin, Ha, Hb.
    rewrite (orb_comm (b <? 0)%float). unfold answered_events.
    rewrite (float_add_comm b a). reflexivity.
  - intros w0. unfold add. now rewrite float_add_comm.
Qed.

(** X9: a result that the calculator prints is never below zero: when
    neither number of the pair is, their sum is not ([sum < 0] is false;
    the sum may be a zero of either sign, infinite or a NaN), and the
    pass writes this sum; when one of them is, no result is written. *)
Theorem printed_result_not_below_zero
  (w : world) (line1 line2 : string) (rest : list string) (a b : float) :
  stdin w = line1 :: line2 :: rest ->
  float_of_str line1 = Some a ->
  float_of_str line2 = Some b ->
  (((a <? 0) || (b <? 0))%float = false ->
     (a + b <? 0)%float = false
     /\ written w (final (iteration w)) = answered_events a b
     /\ results (written w (final (iteration w))) = 1%nat)
  /\ (((a <? 0) || (b <? 0))%float = true ->
     results (written w (final (iteration w))) = 0%nat).
Proof.
  intros Hin Ha Hb. split; intros Hsign.
  - rewrite (iteration_accepted w _ _ _ a b Hin Ha Hb Hsign).
    rewrite (written_after w (tick (reads w (tl rest))) _ eq_refl).
    apply orb_false_iff in Hsign. destruct Hsign as [Hna Hnb].
    split; [now apply float_add_not_below_zero |].
    split; [reflexivity | apply answered_events_counts].
  - rewrite (iteration_rejected w _ _ _ a b Hin Ha Hb Hsign).
    cbn [final]. rewrite written_emit. reflexivity.
Qed.

(** The pass of a round. *)
Lemma round_pass (r : round) (w : world) (rest : list string) :
  goes_on r = true ->
  stdin w = (round_lines r ++ rest)%list ->
  iteration w
  = Ok Continue {| stdin := rest;
                   stdout := (stdout w ++ round_events r)%list;
                   adds := (adds w + round_adds r)%nat |}.
Proof.
  destruct r as [line1 line2 | line1 line2 answer];
    cbn [goes_on round_lines round_events round_adds app]; intros Hgo Hin.
  - destruct (rejects_inv _ _ Hgo) as (a & b & Ha & Hb & Hsign).
    rewrite (iteration_rejected w _ _ _ a b Hin Ha Hb Hsign).
    unfold emit, reads; cbn [stdin stdout adds].
    now rewrite Nat.add_0_r.
  - apply andb_true_iff in Hgo. destruct Hgo as [Hacc Hy].
    unfold accepts in Hacc.
    destruct (float_of_str line1) as [a |] eqn:Ha; [| discriminate].
    destruct (float_of_str line2) as [b |] eqn:Hb; [| discriminate].
    apply negb_true_iff in Hacc.
    rewrite (iteration_answered w _ _ _ _ a b Hin Ha Hb Hacc), Hy.
    unfold emit, tick, reads; cbn [stdin stdout adds negb].
    now rewrite Nat.add_1_r.
Qed.

(** The passes of a sequence of rounds. *)
Lemma session_run (rounds : list round) :
  Forall (fun r => goes_on r = true) rounds ->
  forall (w : world) (rest : list string) (fuel done : nat),
    stdin w = (session_lines rounds ++ rest)%list ->
    while_true (List.length rounds + fuel) iteration done w
    = while_true fuel iteration (List.length rounds + done)
        {| stdin := rest;
           stdout := (stdout w ++ session_events rounds)%list;
           adds := (adds w + session_adds rounds)%nat |}.
Proof.
  induction 1 as [| r rounds Hgo _ IH]; intros w rest fuel done Hin.
  - cbn in Hin |- *. rewrite app_nil_r, Nat.add_0_r, <- Hin.
    now destruct w.
  - unfold session_lines in Hin. cbn [flat_map] in Hin.
    rewrite <- app_assoc in Hin. fold (session_lines rounds) in Hin.
    cbn [List.length Nat.add].
    rewrite (while_true_continue _ _ _ _ _ (round_pass r w _ Hgo Hin)).
    rewrite (IH {| stdin := (session_lines rounds ++ rest)%list;
                   stdout := (stdout w ++ round_events r)%list;
                   adds := (adds w + round_adds r)%nat |}
               rest fuel (S done) eq_refl).
    cbn [stdin stdout adds].
    rewrite <- app_assoc, Nat.add_succ_r, <- Nat.add_assoc. reflexivity.
Qed.

(** X10: a session is played round by round.  After any sequence of
    rounds that go on (a refused pair; or an added pair answered "y" or
    "Y"), the loop is at its first prompt again, having read exactly the
    lines of the rounds, written what each round writes, in order, and
    called [add] once for each added pair.  If an added pair with another
    answer follows, the script ends normally with "Goodbye!" and leaves
    the lines after that answer unread; if the input ends there, the
    script fails with [EOFError] at the first prompt. *)
Theorem session_of_rounds (rounds : list round) :
  Forall (fun r => goes_on r = true) rounds ->
  (forall w rest fuel done,
     stdin w = (session_lines rounds ++ rest)%list ->
     while_true (List.length rounds + fuel) iteration done w
     = while_true fuel iteration (List.length rounds + done)
         {| stdin := rest;
            stdout := (stdout w ++ session_events rounds)%list;
            adds := (adds w + session_adds rounds)%nat |})
  /\ (forall line1 line2 answer rest,
        accepts line1 line2 = true ->
        lower answer <> "y" ->
        script (run_on (session_lines rounds
                        ++ line1 :: line2 :: answer :: rest)%list)
        = Ok tt
            {| stdin := rest;
               stdout := (Print "Simple Calculator"
                          :: session_events rounds
                          ++ round_events (Added line1 line2 answer)
                          ++ [Print "Goodbye!"])%list;
               adds := (session_adds rounds + 1)%nat |})
  /\ script (run_on (session_lines rounds))
     = Raise EOFError
         {| stdin := [];
            stdout := (Print "Simple Calculator"
                       :: session_events rounds
                       ++ [Prompt "Enter first number: "])%list;
            adds := session_adds rounds |}.
Proof.
  intros Hgo. split; [exact (session_run rounds Hgo) |]. split.
  - intros line1 line2 answer rest Hacc Hno.
    set (lines := (session_lines rounds ++ _)%list).
    rewrite <- (main_is_script (List.length rounds + S (List.length lines)))
      by (simpl; lia).
    unfold main, main_loop.
    rewrite (bind_ok _ _ _ _ _ (print_spec _ _)). unfold bind.
    rewrite (session_run rounds Hgo
               (emit (run_on lines) [Print (str "Simple Calculator")])
               (line1 :: line2 :: answer :: rest) _ _ eq_refl).
    unfold accepts in Hacc. cbn [round_events].
    destruct (float_of_str line1) as [a |] eqn:Ha; [| discriminate].
    destruct (float_of_str line2) as [b |] eqn:Hb; [| discriminate].
    apply negb_true_iff in Hacc. apply String.eqb_neq in Hno.
    match goal with
    | |- context [while_true _ _ _ ?w1] =>
        pose proof (iteration_answered w1 line1 line2 answer rest a b
                      eq_refl Ha Hb Hacc) as Hit
    end.
    rewrite Hno in Hit. cbn [negb] in Hit.
    rewrite (while_true_break _ _ _ _ _ Hit), print_spec.
    unfold emit, tick, reads, run_on; cbn [stdin stdout adds app].
    rewrite <- !app_assoc, Nat.add_1_r. reflexivity.
  - set (lines := session_lines rounds).
    rewrite <- (main_is_script (List.length rounds + S (List.length lines)))
      by (simpl; lia).
    unfold main, main_loop.
    rewrite (bind_ok _ _ _ _ _ (print_spec _ _)). unfold bind.
    rewrite (session_run rounds Hgo
               (emit (run_on lines) [Print (str "Simple Calculator")])
               [] _ _ (eq_sym (app_nil_r _))).
    match goal with
    | |- context [while_true _ _ _ ?w1] =>
        assert (Hit : iteration w1
                      = Raise EOFError
                          (emit w1 [Prompt "Enter first number: "]))
          by (rewrite iteration_unfold; reflexivity)
    end.
    rewrite (while_true_raise _ _ _ _ _ _ Hit).
    unfold emit, run_on; cbn [stdin stdout adds app].
    rewrite <- ?app_assoc. reflexivity.
Qed.

(** Results and refusals of two outputs, one after the other. *)
Lemma results_app (es es' : list event) :
  results (es ++ es') = (results es + results es')%nat.
Proof. unfold results. now rewrite filter_app, length_app. Qed.

Lemma refusals_app (es es' : list event) :
  refusals (es ++ es') = (refusals es + refusals es')%nat.
Proof. unfold refusals. now rewrite filter_app, length_app. Qed.

Lemma accounted_refl (w : world) : accounted w w [] [].
Proof.
  unfold accounted. cbn. rewrite app_nil_r, Nat.add_0_r. auto.
Qed.

Lemma accounted_trans (w w1 w2 : world) (c1 c2 : list string)
  (es1 es2 : list event) :
  accounted w w1 c1 es1 -> accounted w1 w2 c2 es2 ->
  accounted w w2 (c1 ++ c2) (es1 ++ es2).
Proof.
  intros (Hin1 & Hout1 & Hadd1 & Hev1) (Hin2 & Hout2 & Hadd2 & Hev2).
  unfold accounted.
  rewrite Hin1, Hin2, Hout2, Hout1, Hadd2, Hadd1, results_app, <- !app_assoc.
  repeat apply conj; try reflexivity; try lia.
  apply Forall_app. now split.
Qed.

(** What one pass reads, writes and adds. *)
Lemma iteration_accounted (w : world) :
  exists consumed es,
    accounted w (final (iteration w)) consumed es
    /\ match iteration w with
       | Ok c _ =>
           (refusals es + results es = 1)%nat
           /\ List.length consumed = (2 * refusals es + 3 * results es)%nat
           /\ (c = Break -> results es = 1%nat)
       | Raise _ _ => refusals es = 0%nat
       | OutOfFuel _ => False
       end.
Proof.
  rewrite iteration_unfold. unfold accounted.
  destruct (stdin w) as [| line1 rest1] eqn:Hin.
  { exists [], [Prompt "Enter first number: "]. cbn.
    rewrite Hin, Nat.add_0_r. repeat apply conj; try reflexivity.
    apply Forall_cons; [now left | apply Forall_nil]. }
  destruct (float_of_str line1) as [a |].
  2:{ exists [line1], [Prompt "Enter first number: "]. cbn.
      rewrite Nat.add_0_r. repeat apply conj; try reflexivity.
      apply Forall_cons; [now left | apply Forall_nil]. }
  destruct rest1 as [| line2 rest2].
  { exists [line1],
      [Prompt "Enter first number: "; Prompt "Enter second number: "]. cbn.
    rewrite Nat.add_0_r. repeat apply conj; try reflexivity.
    apply Forall_cons; [now left |].
    apply Forall_cons; [right; now left | apply Forall_nil]. }
  destruct (float_of_str line2) as [b |].
  2:{ exists [line1; line2],
        [Prompt "Enter first number: "; Prompt "Enter second number: "]. cbn.
      rewrite Nat.add_0_r. repeat apply conj; try reflexivity.
      apply Forall_cons; [now left |].
      apply Forall_cons; [right; now left | apply Forall_nil]. }
  destruct (_ || _).
  { exists [line1; line2], rejected_events.
    destruct rejected_events_counts as (Hres & Href & Hev).
    cbn [final emit reads stdin stdout adds app].
    rewrite Hres, Href, Nat.add_0_r.
    repeat apply conj; try reflexivity; try exact Hev. discriminate. }
  destruct (answered_events_counts a b) as (Hres & Href & Hev).
  destruct rest2 as [| choice rest3].
  - exists [line1; line2], (answered_events a b).
    cbn [final emit tick reads stdin stdout adds app].
    rewrite Hres, Nat.add_1_r.
    repeat apply conj; try reflexivity; try exact Hev.
  - exists [line1; line2; choice], (answered_events a b).
    cbn [final emit tick reads stdin stdout adds app].
    rewrite Hres, Href, Nat.add_1_r.
    repeat apply conj; try reflexivity; try exact Hev.
Qed.

(** What the loop reads, writes and adds, on any input that ends. *)
Lemma while_true_accounted (fuel : nat) :
  forall (done : nat) (w : world),
    exists consumed es,
      accounted w (final (while_true fuel iteration done w)) consumed es
      /\ match while_true fuel iteration done w with
         | Ok n _ =>
             n = (done + refusals es + results es)%nat
             /\ List.length consumed
                = (2 * refusals es + 3 * results es)%nat
             /\ (1 <= results es)%nat
         | _ => True
         end.
Proof.
  induction fuel as [| fuel IH]; intros done w.
  { exists [], []. split; [apply accounted_refl | exact I]. }
  destruct (iteration_accounted w) as (c1 & es1 & Hacc1 & Hpass).
  destruct (iteration w) as [[] w1 | e w1 | w1] eqn:E; cbn [final] in Hacc1.
  - rewrite (while_true_continue _ _ _ _ _ E).
    destruct (IH (S done) w1) as (c2 & es2 & Hacc2 & Hloop).
    exists (c1 ++ c2)%list, (es1 ++ es2)%list.
    split; [exact (accounted_trans _ _ _ _ _ _ _ Hacc1 Hacc2) |].
    destruct (while_true fuel iteration (S done) w1); try exact I.
    rewrite refusals_app, results_app, length_app. lia.
  - rewrite (while_true_break _ _ _ _ _ E).
    exists c1, es1. split; [exact Hacc1 |].
    destruct Hpass as (H1 & Hlen & Hbreak). specialize (Hbreak eq_refl). lia.
  - rewrite (while_true_raise _ _ _ _ _ _ E).
    exists c1, es1. split; [exact Hacc1 | exact I].
  - contradiction.
Qed.

(** "Goodbye!" is not written by the loop. *)
Lemma goodbye_not_loop_event : ~ loop_event (Print "Goodbye!").
Proof.
  unfold loop_event. intros [H | [H | [H | [H | H]]]]; discriminate H.
Qed.

(** X11: on every input that ends (a finite sequence of lines, as
    [stdin] is here), the calculator reads a beginning of it and nothing
    else, writes "Simple Calculator" first and then only what the loop
    writes, and calls [add] exactly once for each "Result:" line.  It ends
    normally only with "Goodbye!" as its last line, after at least one
    result, having read two lines for each refusal and three for each
    result; when it fails, "Goodbye!" is not written.  On such an input
    the run ends: at the latest with the [EOFError] of the read that finds
    no line.  Nothing is said of an input that never ends. *)
Theorem calculator_accounting (w : world) :
  exists consumed es,
    stdin w = (consumed ++ stdin (final (script w)))%list
    /\ stdout (final (script w))
       = (stdout w ++ Print "Simple Calculator" :: es)%list
    /\ adds (final (script w)) = (adds w + results es)%nat
    /\ ~ loop_event (Print "Goodbye!")
    /\ match script w with
       | Ok _ _ =>
           exists es',
             es = (es' ++ [Print "Goodbye!"])%list
             /\ Forall loop_event es'
             /\ List.length consumed
                = (2 * refusals es' + 3 * results es')%nat
             /\ (1 <= results es')%nat
       | Raise _ _ => Forall loop_event es
       | OutOfFuel _ => False
       end.
Proof.
  unfold script, main, main_loop.
  rewrite (bind_ok _ _ _ _ _ (print_spec _ _)). unfold bind.
  destruct (while_true_accounted (S (List.length (stdin w))) 0
              (emit w [Print (str "Simple Calculator")]))
    as (consumed & es & (Hin & Hout & Hadd & Hev) & Hloop).
  destruct (while_true _ _ _ _) as [n w1 | e w1 | w1] eqn:E;
    cbn [final] in Hin, Hout, Hadd.
  - exists consumed, (es ++ [Print "Goodbye!"])%list.
    rewrite print_spec. cbn [final emit stdin stdout adds] in *.
    rewrite Hout, Hadd, results_app, <- !app_assoc.
    split; [exact Hin |]. split; [reflexivity |].
    split; [cbn; lia |]. split; [exact goodbye_not_loop_event |].
    exists es. repeat apply conj; try reflexivity; try exact Hev; lia.
  - exists consumed, es. cbn [final emit stdin stdout adds] in *.
    rewrite Hout, Hadd, <- !app_assoc.
    repeat apply conj; try reflexivity; try assumption.
    exact goodbye_not_loop_event.
  - exfalso. revert E. apply main_loop_fuel. simpl. lia.
Qed.

End CalculatorMore.

(** X8 on the lines 3 and 4. *)
Lemma swapped_pair_same_pass_witness :
  @Calculator.iteration plain_only (run_on ["4"; "3"; "n"])
  = @Calculator.iteration plain_only (run_on ["3"; "4"; "n"]).
Proof.
  exact (proj1 (@swapped_pair_same_pass plain_only
                  (run_on ["3"; "4"; "n"]) "3" "4" ["n"] 3%float 4%float
                  eq_refl eq_refl eq_refl)).
Defined.

(** X9 on the lines 3 and 4. *)
Lemma printed_result_not_below_zero_witness :
  (3 + 4 <? 0)%float = false.
Proof.
  destruct (@printed_result_not_below_zero plain_only
              (run_on ["3"; "4"; "n"]) "3" "4" ["n"] 3%float 4%float
              eq_refl eq_refl eq_refl) as (H & _).
  exact (proj1 (H eq_refl)).
Defined.

(** X10 on a refused pair and an added pair answered "Y", after which
    the input ends. *)
Lemma session_of_rounds_witness :
  @Calculator.script plain_only (run_on ["-1"; "2"; "3"; "4"; "Y"])
  = Raise EOFError
      {| stdin := [];
         stdout := [Print "Simple Calculator";
                    Prompt "Enter first number: ";
                    Prompt "Enter second number: ";
                    Print "Negative numbers not allowed";
                    Prompt "Enter first number: ";
                    Prompt "Enter second number: ";
                    Print "Result: 7.0";
                    Prompt "Continue? (y/n): ";
                    Prompt "Enter first number: "];
         adds := 1 |}.
Proof.
  refine (proj2 (proj2 (@session_of_rounds plain_only
                          [Session.Refused "-1" "2"; Session.Added "3" "4" "Y"]
                          _))).
  apply Forall_cons; [reflexivity |].
  apply Forall_cons; [reflexivity |].
  apply Forall_nil.
Defined.

(* ===================================================================== *)
(** * The two functions on every number *)
(* ===================================================================== *)

Section NumericFacts.
Import Numeric Session.

(** The constants of [test_if_else], as the library specifies floats. *)
Lemma const_0 : Prim2SF (const 0) = S754_zero false.
Proof. reflexivity. Qed.

Lemma const_finite (k : Z) :
  k = 1 \/ k = 2 \/ k = 5 \/ k = 10 ->
  exists m e, Prim2SF (const k) = S754_finite false m e.
Proof. intros [-> | [-> | [-> | ->]]]; eexists; eexists; reflexivity. Qed.

(** What is above a zero or above a positive number is above zero. *)
Lemma SFltb_above_zero (c x : spec_float) :
  match c with
  | S754_zero _ | S754_finite false _ _ => True
  | _ => False
  end ->
  SFltb c x = true -> above_zero x = true.
Proof.
  destruct c as [sc | sc | | sc mc ec], x as [sx | sx | | sx mx ex];
    try destruct sc; try destruct sx; try contradiction;
    intros _; try discriminate; reflexivity.
Qed.

Lemma SFleb_zero_not_above (x : spec_float) :
  SFleb x (S754_zero false) = true -> above_zero x = false.
Proof.
  destruct x as [sx | sx | | sx mx ex]; try destruct sx;
    try discriminate; reflexivity.
Qed.

Lemma above_zero_not_below (x : spec_float) :
  above_zero x = true -> not_below_zero x = true.
Proof.
  destruct x as [sx | sx | | sx mx ex]; try destruct sx;
    try discriminate; reflexivity.
Qed.

(** A float above one of the constants 0, 5 and 10 is above zero. *)
Lemma gt_const_above_zero (f : float) (k : Z) :
  k = 0 \/ k = 5 \/ k = 10 ->
  gt_const (Float f) k = true -> above_zero (Prim2SF f) = true.
Proof.
  intros Hk. cbn [gt_const]. rewrite ltb_spec. apply SFltb_above_zero.
  destruct Hk as [-> | Hk]; [now rewrite const_0 |].
  destruct (const_finite k) as (m & e & ->); [tauto | exact I].
Qed.

(** A float that is [<= 0] is above none of them. *)
Lemma le0_not_gt_const (f : float) (k : Z) :
  k = 0 \/ k = 5 \/ k = 10 ->
  le0 (Float f) = true -> gt_const (Float f) k = false.
Proof.
  intros Hk Hle. cbn [le0] in Hle. rewrite leb_spec in Hle.
  change (Prim2SF 0) with (S754_zero false) in Hle.
  apply SFleb_zero_not_above in Hle.
  destruct (gt_const (Float f) k) eqn:Hgt; [| reflexivity].
  apply (gt_const_above_zero f k Hk) in Hgt. congruence.
Qed.

(** The product and the sum of a float above zero and such a constant
    are not below zero. *)
Lemma mul_const_not_below_zero (f : float) (k : Z) :
  k = 1 \/ k = 2 \/ k = 5 \/ k = 10 ->
  above_zero (Prim2SF f) = true ->
  (f * const k <? 0)%float = false.
Proof.
  intros Hk Hf. rewrite ltb_spec, mul_spec.
  change (Prim2SF 0) with (S754_zero false).
  rewrite SFltb_zero, negb_false_iff.
  destruct (const_finite k Hk) as (m & e & ->).
  destruct (Prim2SF f) as [sx | sx | | sx mx ex]; try destruct sx;
    try discriminate Hf; try reflexivity.
  unfold SF64mul, SFmul. cbn [xorb]. apply binary_round_aux_sign.
Qed.

Lemma add_const_not_below_zero (f : float) (k : Z) :
  k = 1 \/ k = 2 \/ k = 5 \/ k = 10 ->
  above_zero (Prim2SF f) = true ->
  (f + const k <? 0)%float = false.
Proof.
  intros Hk Hf. rewrite ltb_spec, add_spec.
  change (Prim2SF 0) with (S754_zero false).
  rewrite SFltb_zero, negb_false_iff.
  apply SFadd_not_below_zero; [now apply above_zero_not_below |].
  destruct (const_finite k Hk) as (m & e & ->). reflexivity.
Qed.

(** On an [int], [test_if_else] is the function of [IfElse]. *)
Lemma test_if_else_Int (z : Z) (w : world) :
  test_if_else (Int z) w
  = match IfElse.test_if_else z w with
    | Ok r w' => Ok (Int r) w'
    | Raise e w' => Raise e w'
    | OutOfFuel w' => OutOfFuel w'
    end.
Proof.
  unfold test_if_else, IfElse.test_if_else. cbn [gt_const].
  destruct (z >? 10); [reflexivity |].
  destruct (z >? 5); [reflexivity |].
  destruct (z >? 0); reflexivity.
Qed.

Lemma sign_rule_Int (z : Z) : sign_rule (Int z).
Proof.
  intros w. rewrite test_if_else_Int.
  destruct (in_band_total z) as [b Hb].
  rewrite (test_if_else_in_band z w b Hb). cbn [value].
  exists (Int (IfElse.band_value b z)).
  split; [reflexivity |].
  unfold gt0. cbn [lt0 eq0 le0 gt_const].
  rewrite Z.ltb_ge, Z.eqb_eq, Z.leb_le, !Z.gtb_lt.
  destruct b; cbn [IfElse.in_band IfElse.band_value] in Hb |- *; lia.
Qed.

(** On a [float], the result is not negative, and is 0 when [x <= 0]. *)
Lemma test_if_else_Float (f : float) (w : world) :
  exists r,
    value (test_if_else (Float f) w) = Some r
    /\ lt0 r = false
    /\ (le0 (Float f) = true -> r = Int 0).
Proof.
  unfold test_if_else.
  destruct (gt_const (Float f) 10) eqn:H10.
  { exists (mul_const (Float f) 2). split; [reflexivity |]. split.
    - apply mul_const_not_below_zero; [tauto |].
      apply (gt_const_above_zero f 10); tauto.
    - intros Hle. rewrite le0_not_gt_const in H10; [discriminate | tauto | exact Hle]. }
  destruct (gt_const (Float f) 5) eqn:H5.
  { exists (add_const (Float f) 5). split; [reflexivity |]. split.
    - apply add_const_not_below_zero; [tauto |].
      apply (gt_const_above_zero f 5); tauto.
    - intros Hle. rewrite le0_not_gt_const in H5; [discriminate | tauto | exact Hle]. }
  destruct (gt_const (Float f) 0) eqn:H0.
  { exists (add_const (Float f) 1). split; [reflexivity |]. split.
    - apply add_const_not_below_zero; [tauto |].
      apply (gt_const_above_zero f 0); tauto.
    - intros Hle. rewrite le0_not_gt_const in H0; [discriminate | tauto | exact Hle]. }
  exists (Int 0). repeat split; reflexivity.
Qed.

(** The number of binary digits of a mantissa. *)
Lemma digits2_pos_bounds (m : positive) :
  2 ^ (Zpos (digits2_pos m) - 1) <= Zpos m < 2 ^ Zpos (digits2_pos m).
Proof.
  induction m as [m IH | m IH |]; cbn [digits2_pos].
  - rewrite Pos2Z.inj_succ.
    replace (Z.succ (Zpos (digits2_pos m)) - 1) with (Z.succ (Zpos (digits2_pos m) - 1)) by lia.
    rewrite !Z.pow_succ_r by lia. lia.
  - rewrite Pos2Z.inj_succ.
    replace (Z.succ (Zpos (digits2_pos m)) - 1) with (Z.succ (Zpos (digits2_pos m) - 1)) by lia.
    rewrite !Z.pow_succ_r by lia. lia.
  - cbn. lia.
Qed.

Lemma digits2_pos_above (m : positive) (k : Z) :
  0 <= k -> 2 ^ k <= Zpos m -> k < Zpos (digits2_pos m).
Proof.
  intros Hk Hm. destruct (digits2_pos_bounds m) as [_ Hup].
  destruct (Z_lt_dec k (Zpos (digits2_pos m))) as [H | H]; [exact H |].
  assert (2 ^ Zpos (digits2_pos m) <= 2 ^ k) by (apply Z.pow_le_mono_r; lia).
  lia.
Qed.

Lemma digits2_pos_mono (m s : positive) :
  (m <= s)%positive -> Zpos (digits2_pos m) <= Zpos (digits2_pos s).
Proof.
  intros H. destruct (digits2_pos_bounds m) as [Hlow _].
  pose proof (digits2_pos_above s (Zpos (digits2_pos m) - 1) ltac:(lia)) as Ha.
  assert (2 ^ (Zpos (digits2_pos m) - 1) <= Zpos s) by lia. lia.
Qed.

Lemma digits2_pos_iter_xO (m d : positive) :
  Zpos (digits2_pos (Pos.iter xO m d)) = Zpos (digits2_pos m) + Zpos d.
Proof.
  revert m. induction d as [| d IH] using Pos.peano_ind; intros m.
  - cbn. lia.
  - rewrite Pos.iter_succ. cbn [digits2_pos]. rewrite Pos2Z.inj_succ, IH. lia.
Qed.

(** Shifting a mantissa to the right halves it. *)
Lemma shr_1_m (mrs : shr_record) :
  0 <= shr_m mrs -> shr_m (shr_1 mrs) = shr_m mrs / 2.
Proof.
  destruct mrs as [m r s]. cbn [shr_m]. intros Hm.
  destruct m as [| p | p]; [reflexivity | | lia].
  destruct p as [p | p |]; cbn [shr_1 shr_m].
  - apply Z.div_unique with 1; lia.
  - apply Z.div_unique with 0; lia.
  - reflexivity.
Qed.

Lemma iter_pos_shr_1_m (p : positive) :
  forall mrs, 0 <= shr_m mrs ->
    shr_m (iter_pos shr_1 p mrs) = shr_m mrs / 2 ^ Zpos p.
Proof.
  induction p as [p IH | p IH |]; intros mrs Hm; cbn [iter_pos].
  - assert (H1 : 0 <= shr_m (shr_1 mrs)).
    { rewrite shr_1_m by exact Hm. apply Z.div_pos; lia. }
    assert (H2 : 0 <= shr_m (iter_pos shr_1 p (shr_1 mrs))).
    { rewrite IH by exact H1. apply Z.div_pos; [exact H1 | lia]. }
    rewrite IH, IH, shr_1_m by assumption.
    rewrite !Z.div_div by lia. f_equal.
    replace (Zpos p~1) with (1 + Zpos p + Zpos p) by lia.
    rewrite !Z.pow_add_r by lia. change (2 ^ 1) with 2. lia.
  - assert (H2 : 0 <= shr_m (iter_pos shr_1 p mrs)).
    { rewrite IH by exact Hm. apply Z.div_pos; [exact Hm | lia]. }
    rewrite IH, IH by assumption.
    rewrite !Z.div_div by lia. f_equal.
    replace (Zpos p~0) with (Zpos p + Zpos p) by lia.
    rewrite !Z.pow_add_r by lia. lia.
  - rewrite shr_1_m by exact Hm. reflexivity.
Qed.

(** Shifted by less than its number of digits, a mantissa stays positive. *)
Lemma shr_keeps (m : positive) (l : location) (e n : Z) :
  n < Zpos (digits2_pos m) ->
  1 <= shr_m (fst (shr (shr_record_of_loc (Zpos m) l) e n)).
Proof.
  intros Hn.
  assert (Hm : shr_m (shr_record_of_loc (Zpos m) l) = Zpos m)
    by (destruct l as [| []]; reflexivity).
  destruct n as [| p | p]; cbn [shr fst]; try (rewrite Hm; lia).
  rewrite iter_pos_shr_1_m by (rewrite Hm; lia). rewrite Hm.
  destruct (digits2_pos_bounds m) as [Hlow _].
  assert (2 ^ Zpos p <= 2 ^ (Zpos (digits2_pos m) - 1))
    by (apply Z.pow_le_mono_r; lia).
  apply Z.div_le_lower_bound; lia.
Qed.

(** Rounding: the exponent after a shift, and the mantissa after rounding
    to nearest. *)
Lemma shr_exponent (mrs : shr_record) (e n : Z) :
  snd (shr mrs e n) = e + Z.max n 0.
Proof. destruct n; cbn [shr snd]; lia. Qed.

Lemma round_nearest_even_ge (m : Z) (l : location) :
  m <= round_nearest_even m l.
Proof.
  destruct l as [| []]; cbn [round_nearest_even]; try lia.
  destruct (Z.even m); lia.
Qed.

(** A positive number of at least the least positive float is rounded to
    a float above zero. *)
Lemma binary_round_aux_above (m : positive) (e : Z) :
  SpecFloat.emin prec emax < Zpos (digits2_pos m) + e ->
  Numeric.above_zero (binary_round_aux prec emax false (Zpos m) e loc_Exact) = true.
Proof.
  intros Hmag. unfold binary_round_aux, shr_fexp.
  cbn [Zdigits2].
  set (n := SpecFloat.fexp prec emax (Zpos (digits2_pos m) + e) - e).
  assert (Hn : n < Zpos (digits2_pos m)).
  { unfold n, SpecFloat.fexp, SpecFloat.emin, prec, emax in *. lia. }
  pose proof (shr_keeps m loc_Exact e n Hn) as H1.
  pose proof (shr_exponent (shr_record_of_loc (Zpos m) loc_Exact) e n) as He.
  destruct (shr (shr_record_of_loc (Zpos m) loc_Exact) e n) as [mrs' e'].
  cbn [fst snd] in H1, He.
  pose proof (round_nearest_even_ge (shr_m mrs') (loc_of_shr_record mrs')) as Hr.
  destruct (round_nearest_even (shr_m mrs') (loc_of_shr_record mrs')) as [| m1 | m1] eqn:Em1;
    try lia.
  cbn [Zdigits2].
  set (n' := SpecFloat.fexp prec emax (Zpos (digits2_pos m1) + e') - e').
  assert (Hn' : n' < Zpos (digits2_pos m1)).
  { subst e'. unfold n', n, SpecFloat.fexp, SpecFloat.emin, prec, emax in *. lia. }
  pose proof (shr_keeps m1 loc_Exact e' n' Hn') as H2.
  destruct (shr (shr_record_of_loc (Zpos m1) loc_Exact) e' n') as [mrs'' e''].
  cbn [fst] in H2.
  destruct (shr_m mrs'') as [| m2 | m2]; try lia.
  now destruct (e'' <=? emax - prec).
Qed.

Lemma shl_align_digits (m : positive) (e e' : Z) :
  Zpos (digits2_pos (fst (shl_align m e e'))) + snd (shl_align m e e')
  = Zpos (digits2_pos m) + e.
Proof.
  unfold shl_align. destruct (e' - e) as [| d | d] eqn:E; cbn [fst snd];
    try reflexivity.
  rewrite digits2_pos_iter_xO. lia.
Qed.

Lemma shl_align_exponent (m : positive) (e e' : Z) :
  e' <= e -> snd (shl_align m e e') = e'.
Proof.
  intros H. unfold shl_align.
  destruct (e' - e) as [| d | d] eqn:E; cbn [snd]; lia.
Qed.

(** A valid finite float is at least the least positive one. *)
Lemma bounded_magnitude (m : positive) (e : Z) :
  bounded prec emax m e = true ->
  SpecFloat.emin prec emax < Zpos (digits2_pos m) + e.
Proof.
  unfold bounded, canonical_mantissa. intros H.
  apply andb_true_iff in H. destruct H as [H _]. apply Z.eqb_eq in H.
  unfold SpecFloat.fexp, SpecFloat.emin, prec, emax in *. lia.
Qed.

(** The product of a float above zero and a finite one of at least 1 is
    above zero. *)
Lemma SFmul_above_zero (x : spec_float) (mc : positive) (ec : Z) :
  valid_binary x = true ->
  above_zero x = true ->
  2 <= Zpos (digits2_pos mc) + ec ->
  above_zero (SF64mul x (S754_finite false mc ec)) = true.
Proof.
  intros Hv Hx Hc.
  destruct x as [sx | sx | | sx mx ex]; try destruct sx;
    try discriminate Hx; try reflexivity.
  unfold SF64mul, SFmul. cbn [xorb]. apply binary_round_aux_above.
  cbn [valid_binary] in Hv. apply bounded_magnitude in Hv.
  destruct (digits2_pos_bounds mx) as [Hx1 _].
  destruct (digits2_pos_bounds mc) as [Hc1 _].
  assert (Hprod : 2 ^ (Zpos (digits2_pos mx) - 1 + (Zpos (digits2_pos mc) - 1))
                  <= Zpos (mx * mc)).
  { rewrite Z.pow_add_r by lia. rewrite Pos2Z.inj_mul.
    apply Z.mul_le_mono_nonneg; try lia; apply Z.pow_nonneg; lia. }
  apply digits2_pos_above in Hprod; lia.
Qed.

(** The sum of a float above zero and a finite one above zero is above
    zero. *)
Lemma SFadd_above_zero (x : spec_float) (mc : positive) (ec : Z) :
  above_zero x = true ->
  SpecFloat.emin prec emax < Zpos (digits2_pos mc) + ec ->
  above_zero (SF64add x (S754_finite false mc ec)) = true.
Proof.
  intros Hx Hc.
  destruct x as [sx | sx | | sx mx ex]; try destruct sx;
    try discriminate Hx; try reflexivity.
  unfold SF64add, SFadd. cbn [cond_Zopp].
  set (ez := Z.min ex ec).
  pose proof (shl_align_digits mc ec ez) as Hd.
  pose proof (shl_align_exponent mc ec ez ltac:(lia)) as He.
  destruct (shl_align mx ex ez) as [m1 e1], (shl_align mc ec ez) as [m2 e2].
  cbn [fst snd] in *. subst e2.
  cbn [Z.add binary_normalize]. unfold binary_round.
  pose proof (shl_align_digits (m1 + m2) ez
                (SpecFloat.fexp prec emax (Zpos (digits2_pos (m1 + m2)) + ez)))
    as Hd'.
  destruct (shl_align (m1 + m2) ez _) as [mz ez'].
  cbn [fst snd] in Hd'.
  apply binary_round_aux_above.
  pose proof (digits2_pos_mono m2 (m1 + m2) ltac:(lia)). lia.
Qed.

(** The constants 1, 2 and 5, digit by digit. *)
Lemma const_1 : Prim2SF (const 1) = S754_finite false 4503599627370496 (-52).
Proof. reflexivity. Qed.

Lemma const_2 : Prim2SF (const 2) = S754_finite false 4503599627370496 (-51).
Proof. reflexivity. Qed.

Lemma const_5 : Prim2SF (const 5) = S754_finite false 5629499534213120 (-50).
Proof. reflexivity. Qed.

(** How a float above zero compares with zero. *)
Lemma above_zero_compare (y : float) :
  above_zero (Prim2SF y) = true ->
  (y <? 0)%float = false /\ (y =? 0)%float = false
  /\ (y <=? 0)%float = false /\ (const 0 <? y)%float = true.
Proof.
  rewrite !ltb_spec, eqb_spec, leb_spec, const_0.
  change (Prim2SF 0) with (S754_zero false).
  destruct (Prim2SF y) as [sy | sy | | sy my ey]; try destruct sy;
    try discriminate; intros _; repeat split; reflexivity.
Qed.

(** A float that is a number and is not above zero is [<= 0]. *)
Lemma not_above_zero_le0 (f : float) :
  (f =? f)%float = true ->
  above_zero (Prim2SF f) = false ->
  (f <=? 0)%float = true.
Proof.
  rewrite eqb_spec, leb_spec. change (Prim2SF 0) with (S754_zero false).
  destruct (Prim2SF f) as [sx | sx | | sx mx ex]; try destruct sx;
    try discriminate; reflexivity.
Qed.

(** On a float that is a number, the whole rule holds. *)
Lemma sign_rule_Float (f : float) :
  (f =? f)%float = true -> sign_rule (Float f).
Proof.
  intros Hnum w. unfold test_if_else.
  destruct (above_zero (Prim2SF f)) eqn:Habove.
  - destruct (above_zero_compare f Habove) as (_ & _ & Hle & Hgt).
    assert (Hpos : forall y : float,
              above_zero (Prim2SF y) = true ->
              lt0 (Float y) = false
              /\ (eq0 (Float y) = true <-> le0 (Float f) = true)
              /\ (gt0 (Float f) = true -> gt0 (Float y) = true)).
    { intros y Hy. destruct (above_zero_compare y Hy) as (Hy1 & Hy2 & _ & Hy4).
      unfold gt0. cbn [lt0 eq0 le0 gt_const]. rewrite Hy1, Hy2, Hle, Hy4.
      repeat split; intros; congruence. }
    assert (H0 : gt_const (Float f) 0 = true) by exact Hgt.
    pose proof (Prim2SF_valid f) as Hvalid.
    destruct (gt_const (Float f) 10).
    { exists (mul_const (Float f) 2). split; [reflexivity |].
      apply Hpos. cbn [mul_const]. rewrite mul_spec, const_2.
      apply SFmul_above_zero; [exact Hvalid | exact Habove |].
      vm_compute. discriminate. }
    destruct (gt_const (Float f) 5).
    { exists (add_const (Float f) 5). split; [reflexivity |].
      apply Hpos. cbn [add_const]. rewrite add_spec, const_5.
      apply SFadd_above_zero; [exact Habove | vm_compute; reflexivity]. }
    rewrite H0.
    exists (add_const (Float f) 1). split; [reflexivity |].
    apply Hpos. cbn [add_const]. rewrite add_spec, const_1.
    apply SFadd_above_zero; [exact Habove | vm_compute; reflexivity].
  - pose proof (not_above_zero_le0 f Hnum Habove) as Hle.
    rewrite !le0_not_gt_const by (tauto || exact Hle).
    exists (Int 0). split; [reflexivity |]. split; [reflexivity |].
    unfold gt0. rewrite le0_not_gt_const by (tauto || exact Hle).
    cbn [eq0 le0]. rewrite Hle. split; [tauto | discriminate].
Qed.

(** C9 (as the code has it): for every integer [x], and for every float
    [x] that is a number ([x == x]), the value that [test_if_else x]
    returns is not negative, is 0 if and only if [x <= 0], and is positive
    when [x] is.  On a NaN the last branch is taken and 0 is returned,
    although [nan <= 0] is false: there the value is not negative and that
    is all.  The constants the floats meet are the ints of the source,
    converted. *)
Theorem test_if_else_sign :
  (forall z, sign_rule (Int z))
  /\ (forall f, (f =? f)%float = true -> sign_rule (Float f))
  /\ (forall z w,
        test_if_else (Int z) w
        = match IfElse.test_if_else z w with
          | Ok r w' => Ok (Int r) w'
          | Raise e w' => Raise e w'
          | OutOfFuel w' => OutOfFuel w'
          end)
  /\ (forall f w,
        exists r,
          value (test_if_else (Float f) w) = Some r
          /\ lt0 r = false
          /\ (le0 (Float f) = true -> r = Int 0))
  /\ (forall w,
        test_if_else (Float nan) w
        = Ok (Int 0) (emit w [Print "Zero or negative"]))
  /\ le0 (Float nan) = false
  /\ (forall k,
        k = 0 \/ k = 1 \/ k = 2 \/ k = 5 \/ k = 10 ->
        float_of_int k = Some (const k)).
Proof.
  split; [exact sign_rule_Int |].
  split; [exact sign_rule_Float |].
  split; [exact test_if_else_Int |].
  split; [exact test_if_else_Float |].
  split; [reflexivity |]. split; [reflexivity |].
  intros k [-> | [-> | [-> | [-> | ->]]]]; vm_compute; reflexivity.
Qed.

(** The products of [calculate_area], by the kinds of its arguments. *)
Lemma calculate_area_cases (length width : num) :
  calculate_area length width
  = match length, width with
    | Int l, Int w => Returns (Int (l * w))
    | Float x, Float y => Returns (Float (x * y))
    | Int l, Float y =>
        match float_of_int l with
        | Some x => Returns (Float (x * y))
        | None => OverflowError
        end
    | Float x, Int w =>
        match float_of_int w with
        | Some y => Returns (Float (x * y))
        | None => OverflowError
        end
    end.
Proof. now destruct length, width. Qed.

(** When [calculate_area] raises: an [int] too large for a [float],
    beside a [float]. *)
Lemma calculate_area_raises (length width : num) :
  calculate_area length width = OverflowError
  <-> (exists l y, length = Int l /\ width = Float y /\ float_of_int l = None)
      \/ (exists x w,
            length = Float x /\ width = Int w /\ float_of_int w = None).
Proof.
  rewrite calculate_area_cases. split.
  - destruct length as [l | x], width as [w | y]; try discriminate.
    + destruct (float_of_int l) eqn:E; [discriminate |].
      intros _. left. now exists l, y.
    + destruct (float_of_int w) eqn:E; [discriminate |].
      intros _. right. now exists x, w.
  - intros [(l & y & -> & -> & E) | (x & w & -> & -> & E)]; now rewrite E.
Qed.

(** C7 (as the code has it): [calculate_area length width] is
    [length * width] and the function has no test of its own.  On two
    [int]s, zero and negative ones too, it returns their exact product; on
    two [float]s, their product as floats; in neither case is there an
    error.  On an [int] and a [float] it returns the product of the float
    and the float the int is converted to, and raises [OverflowError]
    when the int is too large for that, as 10 ** 400 is beside 1.5: this
    is its one error condition.  On floats a zero argument does not make
    the product zero (0 times infinity is a NaN).  The script's call with
    8 and 6 prints 48. *)
Theorem calculate_area_of_numbers :
  (forall l w : Z,
     calculate_area (Int l) (Int w) = Returns (Int (l * w))
     /\ Simple.calculate_area l w = l * w)
  /\ (forall x y : float,
        calculate_area (Float x) (Float y) = Returns (Float (x * y)))
  /\ (forall l y,
        calculate_area (Int l) (Float y)
        = match float_of_int l with
          | Some x => Returns (Float (x * y))
          | None => OverflowError
          end)
  /\ (forall x w,
        calculate_area (Float x) (Int w)
        = match float_of_int w with
          | Some y => Returns (Float (x * y))
          | None => OverflowError
          end)
  /\ (forall length width,
        calculate_area length width = OverflowError
        <-> (exists l y,
               length = Int l /\ width = Float y /\ float_of_int l = None)
            \/ (exists x w,
                  length = Float x /\ width = Int w
                  /\ float_of_int w = None))
  /\ calculate_area (Float 0) (Float infinity) = Returns (Float nan)
  /\ float_of_int (10 ^ 400) = None
  /\ float_of_int 8 = Some 8%float
  /\ float_of_int (-3) = Some (-3)%float
  /\ float_of_int 0 = Some 0%float
  /\ (forall w,
        Simple.call_block w = Ok tt (emit w [Print "Rectangle area: 48"])).
Proof.
  split; [intros l w; split; reflexivity |].
  split; [reflexivity |].
  split; [reflexivity |].
  split; [reflexivity |].
  split; [exact calculate_area_raises |].
  split; [reflexivity |].
  split; [vm_compute; reflexivity |].
  split; [vm_compute; reflexivity |].
  split; [vm_compute; reflexivity |].
  split; [vm_compute; reflexivity |].
  exact call_block_spec.
Qed.

End NumericFacts.

(** C9, against the sentence as stated ("for every input x ... equals 0
    if and only if x <= 0"): on the float NaN, [test_if_else] returns 0,
    and [nan <= 0] is false. *)
Lemma nan_returns_zero :
  value (Numeric.test_if_else (Numeric.Float nan) (run_on []))
  = Some (Numeric.Int 0)
  /\ Numeric.eq0 (Numeric.Int 0) = true
  /\ Numeric.le0 (Numeric.Float nan) = false
  /\ ~ Numeric.sign_rule (Numeric.Float nan).
Proof.
  repeat apply conj; try reflexivity.
  intros H. destruct (H (run_on [])) as (r & Hr & _ & Hiff & _).
  injection Hr as <-. destruct Hiff as [Hle _].
  specialize (Hle eq_refl). discriminate Hle.
Qed.

(** C7, against the sentence as stated ("for all numeric inputs ... no
    error conditions"): on the int 10 ** 400 and the float 1.5 the product
    raises [OverflowError]. *)
Lemma huge_int_times_float_raises :
  Numeric.calculate_area (Numeric.Int (10 ^ 400)) (Numeric.Float 1.5)
  = Numeric.OverflowError
  /\ ~ Numeric.no_error_condition.
Proof.
  assert (H : Numeric.calculate_area (Numeric.Int (10 ^ 400))
                (Numeric.Float 1.5) = Numeric.OverflowError)
    by (vm_compute; reflexivity).
  split; [exact H |].
  intros Hno.
  destruct (Hno (Numeric.Int (10 ^ 400)) (Numeric.Float 1.5)) as [area Ha].
  rewrite H in Ha. discriminate Ha.
Qed.

(** X4 on the entry value -2. *)
Lemma count_loop_counts_witness :
  Simple.count_loop (-2) (run_on [])
  = Ok 3 (emit (run_on [])
            [Print "Count: -2"; Print "Count: -1"; Print "Count: 0";
             Print "Count: 1"; Print "Count: 2"]).
Proof.
  refine (proj1 (count_loop_counts (-2) (run_on []) _)).
  unfold str_limit. vm_compute. reflexivity.
Defined.

(** C9 on the float 7.5, a number of the middle band. *)
Lemma test_if_else_sign_witness :
  Numeric.sign_rule (Numeric.Float 7.5).
Proof.
  exact (proj1 (proj2 test_if_else_sign) 7.5%float eq_refl).
Defined.
